(** * Gripper: a register-level model of [gripper.py]

    The development embeds the class [Gripper] of [gripper.py]: the
    Python string manipulations used to decode the status word, the
    IEEE-754 packing of positions, and every method as a program over
    a scripted Modbus link that records its register traffic. *)

From Stdlib Require Import ZArith NArith List String Ascii Bool Lia.
From Stdlib Require Import Floats.SpecFloat.
Import ListNotations.

Local Open Scope string_scope.
Local Open Scope Z_scope.

(** ** Python values, exceptions and names *)

Inductive pyval :=
| PyInt (z : Z)
| PyBool (b : bool)
| PyFloat (x : spec_float)
| PyStr (s : string)
| PyNone
| PyObject (name : string).

Inductive exn :=
| Exception (msg : string)
| NameError (name : string)
| ValueError
| OverflowError
| IndexError
| StructError.

(** [isinstance(v, int)]: [bool] is a subclass of [int]. *)
Definition isinstance_int (v : pyval) : bool :=
  match v with PyInt _ | PyBool _ => true | _ => false end.

Definition isinstance_str (v : pyval) : bool :=
  match v with PyStr _ => true | _ => false end.

(** The integer an [int] instance stands for in arithmetic. *)
Definition int_value (v : pyval) : Z :=
  match v with
  | PyInt z => z
  | PyBool b => if b then 1 else 0
  | _ => 0
  end.

(** ['{}'.format(type(v))].  [PyObject name] is the object a method body
    can name: the modules [struct] and [time], the instance [self] (of
    the class [Gripper] of the module [gripper]) and the classes
    [ModbusTcpClient] and [Gripper]. *)
Definition type_repr (v : pyval) : string :=
  match v with
  | PyInt _ => "<class 'int'>"
  | PyBool _ => "<class 'bool'>"
  | PyFloat _ => "<class 'float'>"
  | PyStr _ => "<class 'str'>"
  | PyNone => "<class 'NoneType'>"
  | PyObject name =>
      if (String.eqb name "struct" || String.eqb name "time")%bool
      then "<class 'module'>"
      else if String.eqb name "self" then "<class 'gripper.Gripper'>"
      else "<class 'type'>"
  end.

(** Names bound at module level by the [import] and [class] statements. *)
Definition module_globals : list string :=
  ["ModbusTcpClient"; "struct"; "time"; "Gripper"].

(** ** Python strings *)

Module PyString.

Definition slice (a b : nat) (s : string) : string := substring a (b - a) s.
Definition slice_from (a : nat) (s : string) : string :=
  substring a (String.length s - a) s.
Definition slice_to (b : nat) (s : string) : string := substring 0 b s.

Fixpoint zeros (n : nat) : string :=
  match n with
  | O => EmptyString
  | S n' => String "0" (zeros n')
  end.

Definition is_sign (c : ascii) : bool :=
  (Ascii.eqb c "+" || Ascii.eqb c "-")%bool.

(** [s.zfill(width)]: a leading sign stays in front of the padding. *)
Definition zfill (width : nat) (s : string) : string :=
  let pad := zeros (width - String.length s) in
  match s with
  | String c rest => if is_sign c then String c (pad ++ rest) else pad ++ s
  | EmptyString => pad
  end.

Fixpoint pos_digits (p : positive) (acc : string) : string :=
  match p with
  | xH => String "1" acc
  | xO p' => pos_digits p' (String "0" acc)
  | xI p' => pos_digits p' (String "1" acc)
  end.

(** The binary digits of a natural number, most significant first. *)
Definition digits (n : N) : string :=
  match n with
  | N0 => "0"
  | Npos p => pos_digits p EmptyString
  end.

(** [bin(n)] for a non-negative integer. *)
Definition bin (n : N) : string := "0b" ++ digits n.

(** [format(n, '032b')] for a non-negative integer. *)
Definition format_032b (n : N) : string := zfill 32 (digits n).

Definition digit_value (c : ascii) : option Z :=
  if Ascii.eqb c "0" then Some 0
  else if Ascii.eqb c "1" then Some 1
  else None.

Fixpoint parse_digits (acc : Z) (s : string) : option Z :=
  match s with
  | EmptyString => Some acc
  | String c rest =>
      match digit_value c with
      | Some d => parse_digits (2 * acc + d) rest
      | None => None
      end
  end.

(** [int(s, 2)] on strings of binary digits; anything else, and the
    empty string, is a [ValueError]. *)
Definition int_base2 (s : string) : exn + Z :=
  match s with
  | EmptyString => inl ValueError
  | _ => match parse_digits 0 s with
         | Some z => inr z
         | None => inl ValueError
         end
  end.

(** [s[i]] *)
Definition index (i : nat) (s : string) : exn + string :=
  match get i s with
  | Some c => inr (String c EmptyString)
  | None => inl IndexError
  end.

End PyString.

(** ** Python floats and [struct] *)

Module PyFloat.

(** A Python [float] is an IEEE-754 binary64 number. *)
Definition prec64 : Z := 53.
Definition emax64 : Z := 1024.
(** [struct]'s ['f'] format is binary32. *)
Definition prec32 : Z := 24.
Definition emax32 : Z := 128.

Definition sub : spec_float -> spec_float -> spec_float := SFsub prec64 emax64.
Definition mul : spec_float -> spec_float -> spec_float := SFmul prec64 emax64.
Definition div : spec_float -> spec_float -> spec_float := SFdiv prec64 emax64.

(** The implicit conversion of an [int] operand to [float]. *)
Definition of_int (z : Z) : spec_float := binary_normalize prec64 emax64 z 0 false.

(** Rounding of a binary64 value to binary32, to nearest even. *)
Definition to_single (x : spec_float) : spec_float :=
  match x with
  | S754_finite s m e => binary_round prec32 emax32 s m e
  | _ => x
  end.

(** The exact widening of a binary32 value to binary64. *)
Definition of_single (x : spec_float) : spec_float :=
  match x with
  | S754_finite s m e => binary_round prec64 emax64 s m e
  | _ => x
  end.

Definition sign_bit (s : bool) : N := if s then 2147483648%N else 0%N.

(** The 32-bit pattern of a binary32 value. *)
Definition bits_of_single (x : spec_float) : N :=
  match x with
  | S754_zero s => sign_bit s
  | S754_infinity s => (sign_bit s + 2139095040)%N
  | S754_nan => 2143289344%N
  | S754_finite s m e =>
      if (8388608 <=? Npos m)%N
      then (sign_bit s + Z.to_N (e + 150) * 8388608 + (Npos m - 8388608))%N
      else (sign_bit s + Npos m)%N
  end.

(** The binary32 value of a 32-bit pattern. *)
Definition single_of_bits (n : N) : spec_float :=
  let s := N.testbit n 31 in
  let ex := ((n / 8388608) mod 256)%N in
  let mant := (n mod 8388608)%N in
  if (ex =? 0)%N then
    match mant with
    | N0 => S754_zero s
    | Npos m => S754_finite s m (-149)
    end
  else if (ex =? 255)%N then
    match mant with
    | N0 => S754_infinity s
    | Npos _ => S754_nan
    end
  else
    match (mant + 8388608)%N with
    | N0 => S754_zero s
    | Npos m => S754_finite s m (Z.of_N ex - 150)
    end.

(** [int(x)]: truncation toward zero. *)
Definition to_int (x : spec_float) : exn + Z :=
  match x with
  | S754_zero _ => inr 0
  | S754_infinity _ => inl OverflowError
  | S754_nan => inl ValueError
  | S754_finite s m e =>
      let a := match e with
               | Zneg k => Z.shiftr (Zpos m) (Zpos k)
               | _ => Z.shiftl (Zpos m) e
               end in
      inr (if s then - a else a)
  end.

(** The literal [100.] *)
Definition hundred : spec_float := S754_finite false 7036874417766400 (-46).

End PyFloat.

Module Struct.

Definition byte_of (n : N) : Byte.byte :=
  match Byte.of_N (n mod 256) with
  | Some b => b
  | None => Byte.x00
  end.

(** Network byte order: most significant byte first. *)
Definition bytes_of_u32 (n : N) : list Byte.byte :=
  [byte_of (n / 16777216); byte_of (n / 65536); byte_of (n / 256); byte_of n].

Definition u32_of_bytes (bs : list Byte.byte) : N :=
  fold_left (fun acc b => (acc * 256 + Byte.to_N b)%N) bs 0%N.

(** [struct.pack('!f', x)]: a finite value that rounds to a binary32
    infinity is refused. *)
Definition pack_f (x : spec_float) : exn + list Byte.byte :=
  let y := PyFloat.to_single x in
  match x, y with
  | S754_finite _ _ _, S754_infinity _ => inl OverflowError
  | _, _ => inr (bytes_of_u32 (PyFloat.bits_of_single y))
  end.

(** [struct.unpack('!I', bs)[0]] *)
Definition unpack_I (bs : list Byte.byte) : exn + N :=
  if Nat.eqb (List.length bs) 4 then inr (u32_of_bytes bs) else inl StructError.

(** [struct.pack('!I', n)] *)
Definition pack_I (n : Z) : exn + list Byte.byte :=
  if ((0 <=? n) && (n <? 4294967296))%bool
  then inr (bytes_of_u32 (Z.to_N n))
  else inl StructError.

(** [struct.unpack('!f', bs)[0]] *)
Definition unpack_f (bs : list Byte.byte) : exn + spec_float :=
  if Nat.eqb (List.length bs) 4
  then inr (PyFloat.of_single (PyFloat.single_of_bits (u32_of_bytes bs)))
  else inl StructError.

End Struct.

(** [self.POSITION_MAX = 40.683074951171875]: the binary64 value
    [1333103 / 2^15], which the decimal literal denotes exactly. *)
Definition POSITION_MAX : spec_float := S754_finite false 5725633787199488 (-47).
Definition STATUS_ERROR : Z := 0.
Definition STATUS_OOS : Z := 1.
Definition STATUS_MAINTENANCE : Z := 2.
Definition STATUS_READY : Z := 3.

(** ** The Modbus link and the session

    The device is a script: the replies it will give to the successive
    [read_input_registers] requests, each reply being the [registers]
    of the response (unsigned 16-bit words on the wire).  A request for
    which the script holds no reply leaves the run [Pending]. *)

Inductive event :=
| Connect
| Close
| WriteRegister (address value : Z)
| WriteRegisters (address : Z) (values : list Z)
| ReadInputRegisters (address count : Z)
| Sleep (milliseconds : Z).

Record world := {
  status : Z;                 (* self.status *)
  replies : list (list N);    (* what the device will answer *)
  link_ok : bool              (* whether client.connect() succeeds *)
}.

Inductive outcome (A : Type) :=
| Ret (a : A)
| Raise (e : exn)
| Pending
| OutOfFuel.
Arguments Ret {A} a.
Arguments Raise {A} e.
Arguments Pending {A}.
Arguments OutOfFuel {A}.

Record run (A : Type) := {
  out : outcome A;
  trace : list event;
  final : world
}.
Arguments out {A} r.
Arguments trace {A} r.
Arguments final {A} r.

Definition M (A : Type) : Type := world -> run A.

Definition ret {A} (a : A) : M A :=
  fun w => {| out := Ret a; trace := []; final := w |}.

Definition raise {A} (e : exn) : M A :=
  fun w => {| out := Raise e; trace := []; final := w |}.

Definition out_of_fuel {A} : M A :=
  fun w => {| out := OutOfFuel; trace := []; final := w |}.

Definition bind {A B} (m : M A) (k : A -> M B) : M B :=
  fun w =>
    let r := m w in
    match out r with
    | Ret a =>
        let r' := k a (final r) in
        {| out := out r'; trace := trace r ++ trace r'; final := final r' |}
    | Raise e => {| out := Raise e; trace := trace r; final := final r |}
    | Pending => {| out := Pending; trace := trace r; final := final r |}
    | OutOfFuel => {| out := OutOfFuel; trace := trace r; final := final r |}
    end.

Declare Scope gripper_scope.
Delimit Scope gripper_scope with gripper.
Notation "x <- m ;; k" := (bind m (fun x => k))
  (at level 61, m at next level, right associativity) : gripper_scope.
Notation "m ;; k" := (bind m (fun _ => k))
  (at level 61, right associativity) : gripper_scope.
Local Open Scope gripper_scope.

Definition lift {A} (r : exn + A) : M A :=
  match r with
  | inl e => raise e
  | inr a => ret a
  end.

Definition emit (e : event) : M unit :=
  fun w => {| out := Ret tt; trace := [e]; final := w |}.

Definition set_status (st : Z) : M unit :=
  fun w => {| out := Ret tt; trace := [];
              final := {| status := st; replies := replies w; link_ok := link_ok w |} |}.

Definition self_status : M Z :=
  fun w => {| out := Ret (status w); trace := []; final := w |}.

(** [time.sleep], with the duration in milliseconds. *)
Definition time_sleep (ms : Z) : M unit := emit (Sleep ms).

Module client.

Definition connect : M bool :=
  fun w => {| out := Ret (link_ok w); trace := [Connect]; final := w |}.

Definition close : M unit := emit Close.

(** A write is recorded with the value the method passes; the range
    check the client makes on a register value (0 to 65535) is not part
    of the model. *)
Definition write_register (address value : Z) : M unit :=
  emit (WriteRegister address value).

Definition write_registers (address : Z) (values : list Z) : M unit :=
  emit (WriteRegisters address values).

(** [read_input_registers(address, count).registers] *)
Definition read_input_registers (address count : Z) : M (list N) :=
  fun w =>
    match replies w with
    | [] => {| out := Pending; trace := [ReadInputRegisters address count]; final := w |}
    | r :: rs =>
        {| out := Ret r; trace := [ReadInputRegisters address count];
           final := {| status := status w; replies := rs; link_ok := link_ok w |} |}
    end.

End client.

(** [registers[i]] *)
Definition registers_index (registers : list N) (i : nat) : M N :=
  match nth_error registers i with
  | Some v => ret v
  | None => raise IndexError
  end.

(** Evaluation of a name in a method body: the locals, then the module. *)
Definition load_name (locals : list (string * pyval)) (name : string) : M pyval :=
  match find (fun b => String.eqb (fst b) name) locals with
  | Some b => ret (snd b)
  | None =>
      if existsb (String.eqb name) module_globals
      then ret (PyObject name)
      else raise (NameError name)
  end.

(** [for i in range(n)] whose body may [return]: the body answers
    [true] when it returned. *)
Fixpoint for_range (n : nat) (i : Z) (body : Z -> M bool) : M bool :=
  match n with
  | O => ret false
  | S n' =>
      returned <- body i ;;
      if returned then ret true else for_range n' (i + 1) body
  end.

Fixpoint while_fuel (fuel : nat) (cond : M bool) (body : M unit) : M unit :=
  match fuel with
  | O => out_of_fuel
  | S fuel' =>
      c <- cond ;;
      if c then body ;; while_fuel fuel' cond body else ret tt
  end.

(** [while cond: body] for a condition that reads the link: every
    evaluation of the condition uses up one reply of the script, so
    one more round than there are replies is never exhausted. *)
Definition while (cond : M bool) (body : M unit) : M unit :=
  fun w => while_fuel (S (List.length (replies w))) cond body w.

(** ** The class [Gripper] *)

Module Gripper.

Import PyString.

(** [bin(value)[2:].zfill(16)] *)
Definition word_bits (value : N) : string := zfill 16 (slice_from 2 (bin value)).

(** [int(bin(value)[2:].zfill(16)[5:8], 2)] *)
Definition status_field (value : N) : exn + Z := int_base2 (slice 5 8 (word_bits value)).

(** [int(bin(value)[2:].zfill(16)[i], 2)] *)
Definition flag (i : nat) (value : N) : exn + Z :=
  match index i (word_bits value) with
  | inl e => inl e
  | inr c => int_base2 c
  end.

Definition timeout (value : Z) : M unit :=
  client.write_register 0x1120 value.

Definition acknowledge : M unit :=
  client.write_register 0x0801 0x0100 ;;
  time_sleep 100 ;;
  client.write_register 0x0801 0x8100.

Definition get_status : M Z :=
  registers <- client.read_input_registers 0x0001 1 ;;
  value <- registers_index registers 0 ;;
  st <- lift (status_field value) ;;
  set_status st ;;
  self_status.

Definition success : M Z :=
  registers <- client.read_input_registers 0x0001 1 ;;
  value <- registers_index registers 0 ;;
  has_success <- lift (flag 1 value) ;;
  ret has_success.

Definition handle_errors : M unit :=
  get_status ;;
  st <- self_status ;;
  if st =? STATUS_ERROR then
    acknowledge ;;
    time_sleep 100
  else
    st' <- self_status ;;
    if st' =? STATUS_OOS then
      timeout 1 ;;
      time_sleep 100 ;;
      timeout 0 ;;
      time_sleep 100 ;;
      acknowledge ;;
      time_sleep 100
    else ret tt.

(** The body of the loop of [wait_process_command]; it answers
    [true] when it executes [return]. *)
Definition poll_process_command (i : Z) : M bool :=
  registers <- client.read_input_registers 0x0001 1 ;;
  value <- registers_index registers 0 ;;
  process_command <- lift (flag 0 value) ;;
  if Z.of_N value >? 2 ^ 15 - 1 then ret true else ret false.

Definition wait_process_command : M unit :=
  returned <- for_range 1000 0 poll_process_command ;;
  if returned then ret tt
  else
    timeout 1 ;;
    time_sleep 100 ;;
    timeout 0 ;;
    time_sleep 100 ;;
    acknowledge.

Definition reference : M unit :=
  handle_errors ;;
  client.write_register 0x0801 0x0200 ;;
  time_sleep 100 ;;
  client.write_register 0x0801 0x8200.

Definition measure_stroke : M unit :=
  handle_errors ;;
  client.write_register 0x0801 0x0700 ;;
  time_sleep 100 ;;
  client.write_register 0x0801 0x8700.

Definition calibrate : M unit :=
  handle_errors ;;
  client.write_register 0x0801 0x0900 ;;
  time_sleep 100 ;;
  client.write_register 0x0801 0x8900.

Definition stop : M unit :=
  handle_errors ;;
  client.write_register 0x0801 0x0800 ;;
  time_sleep 100 ;;
  client.write_register 0x0801 0x8800.

Definition fast_stop : M unit :=
  st <- get_status ;;
  (if st =? STATUS_ERROR then acknowledge else ret tt) ;;
  client.write_register 0x0801 0x0000.

Definition disconnect : M unit := client.close.

(** The condition [self.success() != 1]. *)
Definition not_successful : M bool :=
  s <- success ;;
  ret (negb (s =? 1)).

(** The loop [while self.success() != 1: time.sleep(0.05)]. *)
Definition wait_success : M unit :=
  while not_successful (time_sleep 50).

Definition grip (force : pyval) : M unit :=
  if negb (isinstance_int force) then
    t <- load_name [("self", PyObject "self"); ("force", force)] "target_position" ;;
    raise (Exception ("Force requires an int, the variable you entered is of type "
                        ++ type_repr t))
  else
    handle_errors ;;
    let force := int_value force in
    if negb ((1 <=? force) && (force <=? 4)) then
      raise (Exception "Force value out of range (Must be between 1 and 4)")
    else
      client.write_registers 0x0801 [0x0400; (4 - force) * 0x0100; 0; 0] ;;
      time_sleep 50 ;;
      client.write_registers 0x0801 [0x8400; (4 - force) * 0x0100; 0; 0] ;;
      wait_process_command ;;
      time_sleep 1000 ;;
      wait_success.

Definition release : M unit :=
  handle_errors ;;
  client.write_registers 0x0801 [0x0300; 0; 0; 0] ;;
  time_sleep 50 ;;
  client.write_registers 0x0801 [0x8300; 0; 0; 0] ;;
  wait_process_command ;;
  time_sleep 1000 ;;
  wait_success.

(** [((100 - target_position) / 100.) * self.POSITION_MAX] *)
Definition position_mm_of (target_position : Z) : spec_float :=
  PyFloat.mul (PyFloat.div (PyFloat.of_int (100 - target_position)) PyFloat.hundred)
              POSITION_MAX.

(** [format(struct.unpack('!I', struct.pack('!f', position_mm))[0], '032b')] *)
Definition position_bin_of (position_mm : spec_float) : exn + string :=
  match Struct.pack_f position_mm with
  | inl e => inl e
  | inr bs =>
      match Struct.unpack_I bs with
      | inl e => inl e
      | inr n => inr (format_032b n)
      end
  end.

Definition set_position (target_position : pyval) : M unit :=
  if negb (isinstance_int target_position) then
    t <- load_name [("self", PyObject "self"); ("target_position", target_position)]
                   "target_position" ;;
    raise (Exception ("Target position requires an int, the variable you entered is of type "
                        ++ type_repr t))
  else
    handle_errors ;;
    let target_position := int_value target_position in
    if negb ((0 <=? target_position) && (target_position <=? 100)) then
      raise (Exception "Target position value out of range (between 0 and 100)")
    else if target_position <? 3 then
      grip (PyInt 4)
    else if target_position >? 97 then
      release
    else
      let position_mm := position_mm_of target_position in
      position_bin <- lift (position_bin_of position_mm) ;;
      hi <- lift (int_base2 (slice_to 16 position_bin)) ;;
      lo <- lift (int_base2 (slice_from 16 position_bin)) ;;
      client.write_registers 0x0801 [0x0500; 0; hi; lo] ;;
      time_sleep 50 ;;
      hi' <- lift (int_base2 (slice_to 16 position_bin)) ;;
      lo' <- lift (int_base2 (slice_from 16 position_bin)) ;;
      client.write_registers 0x0801 [0x8500; 0; hi'; lo'] ;;
      wait_process_command.

(** The percentage computed from the two position registers. *)
Definition position_perc_of (r0 r1 : N) : exn + Z :=
  let position_bin := word_bits r0 ++ word_bits r1 in
  match int_base2 position_bin with
  | inl e => inl e
  | inr n =>
      match Struct.pack_I n with
      | inl e => inl e
      | inr bs =>
          match Struct.unpack_f bs with
          | inl e => inl e
          | inr position_mm =>
              PyFloat.to_int
                (PyFloat.mul
                   (PyFloat.div (PyFloat.sub POSITION_MAX position_mm) POSITION_MAX)
                   (PyFloat.of_int 100))
          end
      end
  end.

Definition get_position : M Z :=
  registers <- client.read_input_registers 0x0003 2 ;;
  r0 <- registers_index registers 0 ;;
  r1 <- registers_index registers 1 ;;
  position_perc <- lift (position_perc_of r0 r1) ;;
  ret position_perc.

(** [Gripper(ip_adress)] *)
Definition init (ip_adress : pyval) : M unit :=
  if negb (isinstance_str ip_adress) then
    t <- load_name [("self", PyObject "self"); ("ip_adress", ip_adress)]
                   "target_position" ;;
    raise (Exception ("ip_adress requires a string, the variable you entered is of type "
                        ++ type_repr t))
  else
    connected <- client.connect ;;
    if negb connected then
      raise (Exception "Connection to the gripper failed: incorrect IP-adress")
    else
      st <- get_status ;;
      set_status st ;;
      timeout 0 ;;
      time_sleep 100 ;;
      acknowledge ;;
      time_sleep 100 ;;
      reference.

End Gripper.

(** ** Vocabulary of the statements *)

(** A script of single-register replies. *)
Definition words (vs : list N) : list (list N) := map (fun v => [v]) vs.

Definition with_replies (w : world) (rs : list (list N)) : world :=
  {| status := status w; replies := rs; link_ok := link_ok w |}.

Definition with_status (w : world) (st : Z) (rs : list (list N)) : world :=
  {| status := st; replies := rs; link_ok := link_ok w |}.

Definition read_status : event := ReadInputRegisters 0x0001 1.

Definition acknowledge_pair : list event :=
  [WriteRegister 0x0801 0x0100; Sleep 100; WriteRegister 0x0801 0x8100].

Definition soft_reset : list event :=
  [WriteRegister 0x1120 1; Sleep 100; WriteRegister 0x1120 0; Sleep 100]
    ++ acknowledge_pair.

(** What the error-recovery check does for an operating status. *)
Definition recovery_trace (st : Z) : list event :=
  if st =? STATUS_ERROR then acknowledge_pair ++ [Sleep 100]
  else if st =? STATUS_OOS then soft_reset ++ [Sleep 100]
  else [].

Definition is_write (e : event) : bool :=
  match e with
  | WriteRegister _ _ | WriteRegisters _ _ => true
  | _ => false
  end.

Definition is_read (e : event) : bool :=
  match e with
  | ReadInputRegisters _ _ => true
  | _ => false
  end.

(** The command operations that start with the error-recovery check. *)
Inductive operation :=
| OpGrip (force : Z)
| OpRelease
| OpSetPosition (target_position : Z)
| OpStop
| OpReference
| OpCalibrate
| OpMeasureStroke.

Definition perform (op : operation) : M unit :=
  match op with
  | OpGrip force => Gripper.grip (PyInt force)
  | OpRelease => Gripper.release
  | OpSetPosition target_position => Gripper.set_position (PyInt target_position)
  | OpStop => Gripper.stop
  | OpReference => Gripper.reference
  | OpCalibrate => Gripper.calibrate
  | OpMeasureStroke => Gripper.measure_stroke
  end.

(** The two position words [set_position] writes for a target. *)
Definition encode_position (target_position : Z) : exn + (Z * Z) :=
  match Gripper.position_bin_of (Gripper.position_mm_of target_position) with
  | inl e => inl e
  | inr position_bin =>
      match PyString.int_base2 (PyString.slice_to 16 position_bin),
            PyString.int_base2 (PyString.slice_from 16 position_bin) with
      | inr hi, inr lo => inr (hi, lo)
      | inl e, _ => inl e
      | _, inl e => inl e
      end
  end.

(** A status word that does not yet accept the command, and one that
    does: the test [value > 2 ** 15 - 1] of [wait_process_command]. *)
Definition busy (v : N) : Prop := Z.of_N v <= 0x7FFF.
Definition accepted (v : N) : Prop := 0x7FFF < Z.of_N v.

(** A status word whose success flag, character 1 of the sixteen, is 1. *)
Definition succeeded (v : N) : Prop := Gripper.flag 1 v = inr 1.

(** The traffic of the success loop over words that do not show
    success, up to the read of one that does. *)
Definition success_polling (waiting : list N) : list event :=
  flat_map (fun _ => [read_status; Sleep 50]) waiting ++ [read_status].

(** A session that has just been created over a script. *)
Definition session (rs : list (list N)) : world :=
  {| status := 0; replies := rs; link_ok := true |}.

(** A program only ever takes replies from the front of the script. *)
Definition consumed_by {A} (m : M A) : Prop :=
  forall w, exists c, replies w = (c ++ replies (final (m w)))%list.

(** A program that, when it returns, has last read a status word
    showing success. *)
Definition returns_on_success (m : M unit) : Prop :=
  forall w, out (m w) = Ret tt ->
    exists c vs regs tr,
      replies w = (c ++ (vs :: regs) :: replies (final (m w)))%list
      /\ succeeded vs
      /\ trace (m w) = (tr ++ [read_status])%list.

(** A program whose loops never run out of rounds. *)
Definition fuel_free {A} (m : M A) : Prop :=
  forall w, out (m w) <> OutOfFuel.

(** Two sessions over the same link: they differ at most in the cached
    [self.status]. *)
Definition same_link (w1 w2 : world) : Prop :=
  replies w1 = replies w2 /\ link_ok w1 = link_ok w2.

(** A program whose result and traffic do not depend on the cached
    status it starts from. *)
Definition status_blind {A} (m : M A) : Prop :=
  forall w1 w2, same_link w1 w2 ->
    out (m w1) = out (m w2)
    /\ trace (m w1) = trace (m w2)
    /\ same_link (final (m w1)) (final (m w2)).

(** The percentages 0, 1, ..., 100. *)
Definition percentages : list Z := map Z.of_nat (seq 0 101).

(** The two words written for a target are the halves of the binary32
    pattern of the position in millimetres. *)
Definition move_words_ok (target_position : Z) : bool :=
  match encode_position target_position with
  | inr (hi, lo) =>
      (hi * 65536 + lo =?
         Z.of_N (PyFloat.bits_of_single
                   (PyFloat.to_single (Gripper.position_mm_of target_position))))
      && (0 <=? hi) && (hi <? 65536) && (0 <=? lo) && (lo <? 65536)
  | inl _ => false
  end.

(** Reading back the words written for a percentage gives it back
    within one. *)
Definition roundtrip_ok (percentage : Z) : bool :=
  match encode_position percentage with
  | inr (hi, lo) =>
      match Gripper.position_perc_of (Z.to_N hi) (Z.to_N lo) with
      | inr q => Z.abs (q - percentage) <=? 1
      | inl _ => false
      end
  | inl _ => false
  end.

(** [f] holds of every number below [n]. *)
Definition all_below (n : N) (f : N -> bool) : bool :=
  snd (N.iter n (fun s => (N.succ (fst s), snd s && f (fst s))) (0%N, true)).

(** The decoder agrees with the bit fields of an unsigned 16-bit word:
    the operating status is bits 10..8, the success flag bit 14 and
    the process-command flag bit 15. *)
Definition decodes_as_bits (v : N) : bool :=
  match Gripper.status_field v, Gripper.flag 0 v, Gripper.flag 1 v with
  | inr st, inr pc, inr ok =>
      (st =? Z.of_N ((v / 256) mod 8))
      && (pc =? Z.of_N (v / 32768))
      && (ok =? Z.of_N ((v / 16384) mod 2))
  | _, _, _ => false
  end.

(** The sixteen binary digits of an unsigned 16-bit word read back as
    the word. *)
Definition word_bits_ok (v : N) : bool :=
  Nat.eqb (String.length (Gripper.word_bits v)) 16
  && match PyString.parse_digits 0 (Gripper.word_bits v) with
     | Some z => z =? Z.of_N v
     | None => false
     end.

(** Reading back the words written for a percentage gives the
    percentage or one less, and stays between 0 and 100. *)
Definition roundtrip_at_or_below (percentage : Z) : bool :=
  match encode_position percentage with
  | inr (hi, lo) =>
      match Gripper.position_perc_of (Z.to_N hi) (Z.to_N lo) with
      | inr q =>
          ((q =? percentage) || (q =? percentage - 1)) && (0 <=? q) && (q <=? 100)
      | inl _ => false
      end
  | inl _ => false
  end.

(** The float [get_position] computes with: the binary32 value whose
    pattern is the first register followed by the second. *)
Definition position_mm_from (r0 r1 : N) : spec_float :=
  PyFloat.of_single (PyFloat.single_of_bits (r0 * 65536 + r1)).

(** [int(((POSITION_MAX - mm) / POSITION_MAX) * 100)] *)
Definition percentage_of_mm (position_mm : spec_float) : exn + Z :=
  PyFloat.to_int
    (PyFloat.mul
       (PyFloat.div (PyFloat.sub POSITION_MAX position_mm) POSITION_MAX)
       (PyFloat.of_int 100)).

(** The targets [set_position] moves to itself: 3, 4, ..., 97. *)
Definition move_targets : list Z := map Z.of_nat (seq 3 95).

(** The two words written for a target are the halves of the binary32
    pattern of [((100 - target) / 100.) * POSITION_MAX], and the number
    [m * 2 ^ e] they denote is within [2 ^ -18] of
    [(100 - target) * 1333103 / 3276800], the exact position in
    millimetres. *)
Definition move_words_encode (target_position : Z) : bool :=
  match encode_position target_position with
  | inr (hi, lo) =>
      (hi * 65536 + lo =?
         Z.of_N (PyFloat.bits_of_single
                   (PyFloat.to_single
                      (PyFloat.mul
                         (PyFloat.div (PyFloat.of_int (100 - target_position))
                                      PyFloat.hundred)
                         POSITION_MAX))))
      && match PyFloat.single_of_bits (Z.to_N (hi * 65536 + lo)) with
         | S754_finite false m e =>
             (e <=? 0)
             && (Z.abs (Zpos m * 3276800
                        - (100 - target_position) * 1333103 * 2 ^ (- e)) * 262144
                 <=? 3276800 * 2 ^ (- e))
         | _ => false
         end
  | inl _ => false
  end.

(** A string of binary digits. *)
Fixpoint all_digits (s : string) : Prop :=
  match s with
  | EmptyString => True
  | String c rest => (c = "0"%char \/ c = "1"%char) /\ all_digits rest
  end.

(** * Properties *)

(** ** Binary strings *)

Section BinaryStrings.

Import PyString.

Lemma all_digits_app s t : all_digits s -> all_digits t -> all_digits (s ++ t).
Proof.
  induction s as [|c s IH]; simpl; [easy|].
  intros [Hc Hs] Ht; split; auto.
Qed.

Lemma all_digits_zeros n : all_digits (zeros n).
Proof. induction n; simpl; auto. Qed.

Lemma pos_digits_all p : forall acc, all_digits acc -> all_digits (pos_digits p acc).
Proof.
  induction p as [p IH|p IH|]; simpl; intros acc Hacc.
  - apply IH; simpl; auto.
  - apply IH; simpl; auto.
  - auto.
Qed.

Lemma digits_all n : all_digits (digits n).
Proof.
  destruct n as [|p]; simpl; [auto|].
  apply pos_digits_all; exact I.
Qed.

Lemma substring_full s : substring 0 (String.length s) s = s.
Proof. induction s as [|c s IH]; simpl; [reflexivity|now rewrite IH]. Qed.

Lemma bin_strip n : slice_from 2 (bin n) = digits n.
Proof.
  unfold slice_from, bin; simpl.
  rewrite Nat.sub_0_r; apply substring_full.
Qed.

Lemma append_empty_r s : s ++ "" = s.
Proof. induction s as [|c s IH]; simpl; [reflexivity|now rewrite IH]. Qed.

Lemma zfill_digits width s :
  all_digits s -> zfill width s = zeros (width - String.length s) ++ s.
Proof.
  destruct s as [|c s]; simpl.
  - intros _; now rewrite append_empty_r.
  - intros [[->| ->] _]; reflexivity.
Qed.

Lemma length_append s t : String.length (s ++ t) = (String.length s + String.length t)%nat.
Proof. induction s as [|c s IH]; simpl; [reflexivity|now rewrite IH]. Qed.

Lemma length_zeros n : String.length (zeros n) = n.
Proof. induction n as [|n IH]; simpl; [reflexivity|now rewrite IH]. Qed.

Lemma all_digits_substring s : forall n m, all_digits s -> all_digits (substring n m s).
Proof.
  induction s as [|c s IH]; intros n m H.
  - destruct n, m; exact I.
  - destruct H as [Hc Hs]; destruct n as [|n]; simpl.
    + destruct m as [|m]; simpl; auto.
    + auto.
Qed.

Lemma length_substring s : forall n m,
  (n + m <= String.length s)%nat -> String.length (substring n m s) = m.
Proof.
  induction s as [|c s IH]; intros n m H; simpl in H.
  - destruct n, m; simpl in *; lia.
  - destruct n as [|n]; simpl.
    + destruct m as [|m]; simpl; [reflexivity|].
      rewrite (IH 0%nat m); [reflexivity|simpl; lia].
    + apply IH; lia.
Qed.

Lemma parse_digits_total s : all_digits s -> forall acc, exists z, parse_digits acc s = Some z.
Proof.
  induction s as [|c s IH]; simpl; intros H acc.
  - now exists acc.
  - destruct H as [[->| ->] Hs]; simpl; apply IH; assumption.
Qed.

Lemma int_base2_total s :
  all_digits s -> (0 < String.length s)%nat -> exists z, int_base2 s = inr z.
Proof.
  intros H Hlen; destruct (parse_digits_total s H 0) as [z Hz].
  exists z; unfold int_base2; rewrite Hz.
  destruct s; [simpl in Hlen; lia|reflexivity].
Qed.

Lemma get_digit s : forall i,
  all_digits s -> (i < String.length s)%nat ->
  exists c, get i s = Some c /\ (c = "0"%char \/ c = "1"%char).
Proof.
  induction s as [|c s IH]; intros i H Hi; simpl in Hi; [lia|].
  destruct H as [Hc Hs]; destruct i as [|i]; simpl.
  - now exists c.
  - apply IH; [assumption|lia].
Qed.

Lemma word_bits_digits v :
  Gripper.word_bits v = zeros (16 - String.length (digits v)) ++ digits v.
Proof.
  unfold Gripper.word_bits; rewrite bin_strip.
  apply zfill_digits, digits_all.
Qed.

Lemma word_bits_all v : all_digits (Gripper.word_bits v).
Proof.
  rewrite word_bits_digits.
  apply all_digits_app; [apply all_digits_zeros|apply digits_all].
Qed.

Lemma word_bits_length v : (16 <= String.length (Gripper.word_bits v))%nat.
Proof. rewrite word_bits_digits, length_append, length_zeros; lia. Qed.

(** The status field of every word decodes: [get_status] never fails
    in [int]. *)
Lemma status_field_total v : exists st, Gripper.status_field v = inr st.
Proof.
  unfold Gripper.status_field, slice.
  pose proof (word_bits_length v) as Hlen.
  apply int_base2_total.
  - apply all_digits_substring, word_bits_all.
  - rewrite length_substring; simpl; lia.
Qed.

(** So does each of the sixteen flags. *)
Lemma flag_total i v : (i < 16)%nat -> exists b, Gripper.flag i v = inr b.
Proof.
  intros Hi; unfold Gripper.flag, index.
  pose proof (word_bits_length v) as Hlen.
  destruct (get_digit (Gripper.word_bits v) i (word_bits_all v)) as [c [-> Hc]]; [lia|].
  destruct Hc as [->| ->]; [now exists 0|now exists 1].
Qed.

End BinaryStrings.

(** ** Runs of the primitives *)

Local Open Scope list_scope.

Section Runs.

Lemma bind_run {A B} (m : M A) (k : A -> M B) w a t w' :
  m w = {| out := Ret a; trace := t; final := w' |} ->
  bind m k w =
    {| out := out (k a w'); trace := t ++ trace (k a w'); final := final (k a w') |}.
Proof. intros H; unfold bind; rewrite H; reflexivity. Qed.

Lemma bind_trace_ret {A B} (m : M A) (k : A -> M B) w a :
  out (m w) = Ret a ->
  trace (bind m k w) = trace (m w) ++ trace (k a (final (m w))).
Proof. intros H; unfold bind; rewrite H; reflexivity. Qed.

Lemma bind_emit {B} (e : event) (k : unit -> M B) w :
  bind (emit e) k w =
    {| out := out (k tt w); trace := e :: trace (k tt w); final := final (k tt w) |}.
Proof. reflexivity. Qed.

Lemma run_eta {A} (r : run A) :
  r = {| out := out r; trace := trace r; final := final r |}.
Proof. destruct r; reflexivity. Qed.

Lemma get_status_run w v regs rs st :
  replies w = (v :: regs) :: rs ->
  Gripper.status_field v = inr st ->
  Gripper.get_status w =
    {| out := Ret st; trace := [read_status]; final := with_status w st rs |}.
Proof.
  intros Hw Hst.
  unfold Gripper.get_status, bind, client.read_input_registers.
  rewrite Hw; cbn. rewrite Hst; reflexivity.
Qed.

Lemma bind_pending {A B} (m : M A) (k : A -> M B) w t w' :
  m w = {| out := Pending; trace := t; final := w' |} ->
  bind m k w = {| out := Pending; trace := t; final := w' |}.
Proof. intros H; unfold bind; rewrite H; reflexivity. Qed.

Lemma bind_raise {A B} (m : M A) (k : A -> M B) w e t w' :
  m w = {| out := Raise e; trace := t; final := w' |} ->
  bind m k w = {| out := Raise e; trace := t; final := w' |}.
Proof. intros H; unfold bind; rewrite H; reflexivity. Qed.

Lemma get_status_pending w :
  replies w = [] ->
  Gripper.get_status w = {| out := Pending; trace := [read_status]; final := w |}.
Proof.
  intros Hw.
  unfold Gripper.get_status, bind, client.read_input_registers.
  rewrite Hw; reflexivity.
Qed.

Lemma get_status_index_error w rs :
  replies w = [] :: rs ->
  Gripper.get_status w =
    {| out := Raise IndexError; trace := [read_status]; final := with_replies w rs |}.
Proof.
  intros Hw.
  unfold Gripper.get_status, bind, client.read_input_registers.
  rewrite Hw; reflexivity.
Qed.

Lemma success_run w v regs rs b :
  replies w = (v :: regs) :: rs ->
  Gripper.flag 1 v = inr b ->
  Gripper.success w =
    {| out := Ret b; trace := [read_status]; final := with_replies w rs |}.
Proof.
  intros Hw Hb.
  unfold Gripper.success, bind, client.read_input_registers.
  rewrite Hw; cbn. rewrite Hb; reflexivity.
Qed.

Lemma handle_errors_run w v regs rs st :
  replies w = (v :: regs) :: rs ->
  Gripper.status_field v = inr st ->
  Gripper.handle_errors w =
    {| out := Ret tt; trace := read_status :: recovery_trace st;
       final := with_status w st rs |}.
Proof.
  intros Hw Hst.
  unfold Gripper.handle_errors.
  rewrite (bind_run _ _ _ _ _ _ (get_status_run w v regs rs st Hw Hst)).
  unfold recovery_trace; cbn.
  destruct (st =? STATUS_ERROR); [reflexivity|cbn].
  destruct (st =? STATUS_OOS); reflexivity.
Qed.

Lemma with_replies_same w : with_replies w (replies w) = w.
Proof. destruct w; reflexivity. Qed.

Lemma poll_busy w v regs rs i :
  replies w = (v :: regs) :: rs ->
  busy v ->
  Gripper.poll_process_command i w =
    {| out := Ret false; trace := [read_status]; final := with_replies w rs |}.
Proof.
  intros Hw Hv; destruct (flag_total 0 v) as [b Hb]; [lia|].
  unfold Gripper.poll_process_command, bind, client.read_input_registers.
  rewrite Hw; cbn. rewrite Hb; cbn.
  unfold busy in Hv.
  destruct (Z.gtb_spec (Z.of_N v) 32767) as [H|H]; [lia|reflexivity].
Qed.

Lemma poll_accepted w v regs rs i :
  replies w = (v :: regs) :: rs ->
  accepted v ->
  Gripper.poll_process_command i w =
    {| out := Ret true; trace := [read_status]; final := with_replies w rs |}.
Proof.
  intros Hw Hv; destruct (flag_total 0 v) as [b Hb]; [lia|].
  unfold Gripper.poll_process_command, bind, client.read_input_registers.
  rewrite Hw; cbn. rewrite Hb; cbn.
  unfold accepted in Hv.
  destruct (Z.gtb_spec (Z.of_N v) 32767) as [H|H]; [reflexivity|lia].
Qed.

Lemma poll_pending w i :
  replies w = [] ->
  Gripper.poll_process_command i w =
    {| out := Pending; trace := [read_status]; final := w |}.
Proof.
  intros Hw.
  unfold Gripper.poll_process_command, bind, client.read_input_registers.
  rewrite Hw; reflexivity.
Qed.

(** [n] busy words use up the whole loop. *)
Lemma for_range_busy bs : forall n i w rs,
  replies w = words bs ++ rs ->
  Forall busy bs ->
  List.length bs = n ->
  for_range n i Gripper.poll_process_command w =
    {| out := Ret false; trace := repeat read_status n; final := with_replies w rs |}.
Proof.
  induction bs as [|b bs IH]; intros n i w rs Hw Hbs Hn; simpl in Hn; subst n.
  - simpl in Hw; rewrite <- Hw, with_replies_same; reflexivity.
  - inversion Hbs as [|? ? Hb Hbs']; subst.
    cbn [for_range].
    rewrite (bind_run _ _ _ _ _ _ (poll_busy w b [] (words bs ++ rs) i Hw Hb)).
    rewrite (IH (List.length bs) (i + 1) (with_replies w (words bs ++ rs)) rs
                eq_refl Hbs' eq_refl).
    reflexivity.
Qed.

(** Fewer busy words than rounds, then an accepting word: the loop
    returns at that word. *)
Lemma for_range_accepted bs : forall n i w va regs rs,
  replies w = words bs ++ (va :: regs) :: rs ->
  Forall busy bs ->
  (List.length bs < n)%nat ->
  accepted va ->
  for_range n i Gripper.poll_process_command w =
    {| out := Ret true; trace := repeat read_status (S (List.length bs));
       final := with_replies w rs |}.
Proof.
  induction bs as [|b bs IH]; intros n i w va regs rs Hw Hbs Hn Hva;
    (destruct n as [|n]; [simpl in Hn; lia|]); cbn [for_range].
  - rewrite (bind_run _ _ _ _ _ _ (poll_accepted w va regs rs i Hw Hva)).
    reflexivity.
  - inversion Hbs as [|? ? Hb Hbs']; subst.
    rewrite (bind_run _ _ _ _ _ _
               (poll_busy w b [] (words bs ++ (va :: regs) :: rs) i Hw Hb)).
    rewrite (IH n (i + 1) (with_replies w (words bs ++ (va :: regs) :: rs))
                va regs rs eq_refl Hbs'); [reflexivity| |assumption].
    simpl in Hn; lia.
Qed.

(** Fewer busy words than rounds and nothing more: the loop is still
    waiting, after one request more than it got answers. *)
Lemma for_range_pending bs : forall n i w,
  replies w = words bs ->
  Forall busy bs ->
  (List.length bs < n)%nat ->
  for_range n i Gripper.poll_process_command w =
    {| out := Pending; trace := repeat read_status (S (List.length bs));
       final := with_replies w [] |}.
Proof.
  induction bs as [|b bs IH]; intros n i w Hw Hbs Hn;
    (destruct n as [|n]; [simpl in Hn; lia|]); cbn [for_range].
  - unfold bind; rewrite (poll_pending w i Hw); cbn.
    simpl in Hw; rewrite <- Hw, with_replies_same; reflexivity.
  - inversion Hbs as [|? ? Hb Hbs']; subst.
    rewrite (bind_run _ _ _ _ _ _ (poll_busy w b [] (words bs) i Hw Hb)).
    rewrite (IH n (i + 1) (with_replies w (words bs)) eq_refl Hbs'); [reflexivity|].
    simpl in Hn; lia.
Qed.

End Runs.

(** ** Acceptance polling *)

(** C3: [wait_process_command] returns at the first status word above
    [0x7FFF]; after exactly 1000 words that are not, and not earlier,
    it gives up and performs the soft reset: 1 to register [0x1120],
    a pause, 0 to [0x1120], a pause, then the acknowledge pair
    [0x0100], [0x8100] on [0x0801].  With fewer than 1000 such words
    and no further reply it is still polling and has written nothing. *)
Theorem wait_process_command_accepts_or_times_out :
  forall (w : world) (bs : list N) (rs : list (list N)),
    replies w = words bs ++ rs ->
    Forall busy bs ->
    (forall va regs rs',
        rs = (va :: regs) :: rs' -> accepted va -> (List.length bs < 1000)%nat ->
        Gripper.wait_process_command w =
          {| out := Ret tt;
             trace := repeat read_status (S (List.length bs));
             final := with_replies w rs' |})
    /\ (List.length bs = 1000%nat ->
        Gripper.wait_process_command w =
          {| out := Ret tt;
             trace := repeat read_status 1000
                        ++ [WriteRegister 0x1120 1; Sleep 100;
                            WriteRegister 0x1120 0; Sleep 100;
                            WriteRegister 0x0801 0x0100; Sleep 100;
                            WriteRegister 0x0801 0x8100];
             final := with_replies w rs |})
    /\ (rs = [] -> (List.length bs < 1000)%nat ->
        out (Gripper.wait_process_command w) = Pending
        /\ trace (Gripper.wait_process_command w)
           = repeat read_status (S (List.length bs))).
Proof.
  intros w bs rs Hw Hbs; split; [|split].
  - intros va regs rs' -> Hva Hlen.
    unfold Gripper.wait_process_command.
    rewrite (bind_run _ _ _ _ _ _
               (for_range_accepted bs 1000 0 w va regs rs' Hw Hbs Hlen Hva)).
    cbn [out trace final ret]; now rewrite app_nil_r.
  - intros Hlen.
    unfold Gripper.wait_process_command.
    rewrite (bind_run _ _ _ _ _ _ (for_range_busy bs 1000 0 w rs Hw Hbs Hlen)).
    generalize (repeat read_status 1000); intros reads; reflexivity.
  - intros -> Hlen; rewrite app_nil_r in Hw.
    unfold Gripper.wait_process_command, bind.
    rewrite (for_range_pending bs 1000 0 w Hw Hbs Hlen).
    split; reflexivity.
Qed.

(** ** The success loop *)

Section SuccessLoop.

Lemma not_successful_wait w v regs rs :
  replies w = (v :: regs) :: rs ->
  ~ succeeded v ->
  Gripper.not_successful w =
    {| out := Ret true; trace := [read_status]; final := with_replies w rs |}.
Proof.
  intros Hw Hv; destruct (flag_total 1 v) as [b Hb]; [lia|].
  unfold Gripper.not_successful.
  rewrite (bind_run _ _ _ _ _ _ (success_run w v regs rs b Hw Hb)); cbn.
  destruct (Z.eqb_spec b 1) as [->|_]; [contradiction|reflexivity].
Qed.

Lemma not_successful_done w v regs rs :
  replies w = (v :: regs) :: rs ->
  succeeded v ->
  Gripper.not_successful w =
    {| out := Ret false; trace := [read_status]; final := with_replies w rs |}.
Proof.
  intros Hw Hv; unfold Gripper.not_successful.
  rewrite (bind_run _ _ _ _ _ _ (success_run w v regs rs 1 Hw Hv)); reflexivity.
Qed.

Lemma while_fuel_success waiting : forall fuel w vs regs rs,
  replies w = words waiting ++ (vs :: regs) :: rs ->
  Forall (fun v => ~ succeeded v) waiting ->
  succeeded vs ->
  (List.length waiting < fuel)%nat ->
  while_fuel fuel Gripper.not_successful (time_sleep 50) w =
    {| out := Ret tt; trace := success_polling waiting; final := with_replies w rs |}.
Proof.
  induction waiting as [|v waiting IH]; intros fuel w vs regs rs Hw Hwait Hvs Hfuel;
    (destruct fuel as [|fuel]; [simpl in Hfuel; lia|]); cbn [while_fuel].
  - rewrite (bind_run _ _ _ _ _ _ (not_successful_done w vs regs rs Hw Hvs)).
    reflexivity.
  - inversion Hwait as [|? ? Hv Hwait']; subst.
    rewrite (bind_run _ _ _ _ _ _
               (not_successful_wait w v [] (words waiting ++ (vs :: regs) :: rs) Hw Hv)).
    cbv beta iota.
    rewrite (bind_emit (Sleep 50)).
    rewrite (IH fuel (with_replies w (words waiting ++ (vs :: regs) :: rs))
                vs regs rs eq_refl Hwait' Hvs); [reflexivity|].
    simpl in Hfuel; lia.
Qed.

Lemma wait_success_run w waiting vs regs rs :
  replies w = words waiting ++ (vs :: regs) :: rs ->
  Forall (fun v => ~ succeeded v) waiting ->
  succeeded vs ->
  Gripper.wait_success w =
    {| out := Ret tt; trace := success_polling waiting; final := with_replies w rs |}.
Proof.
  intros Hw Hwait Hvs; unfold Gripper.wait_success, while.
  apply (while_fuel_success waiting _ w vs regs rs Hw Hwait Hvs).
  rewrite Hw, List.length_app; unfold words; rewrite List.length_map; simpl; lia.
Qed.

End SuccessLoop.

(** ** What every program does to the script *)

Section Consumption.

Lemma consumed_ret {A} (a : A) : consumed_by (ret a).
Proof. intros w; now exists []. Qed.

Lemma consumed_raise {A} e : consumed_by (@raise A e).
Proof. intros w; now exists []. Qed.

Lemma consumed_out_of_fuel {A} : consumed_by (@out_of_fuel A).
Proof. intros w; now exists []. Qed.

Lemma consumed_emit e : consumed_by (emit e).
Proof. intros w; now exists []. Qed.

Lemma consumed_set_status st : consumed_by (set_status st).
Proof. intros w; now exists []. Qed.

Lemma consumed_self_status : consumed_by self_status.
Proof. intros w; now exists []. Qed.

Lemma consumed_lift {A} (r : exn + A) : consumed_by (lift r).
Proof. destruct r; intros w; now exists []. Qed.

Lemma consumed_registers_index regs i : consumed_by (registers_index regs i).
Proof.
  unfold registers_index; destruct (nth_error regs i); intros w; now exists [].
Qed.

Lemma consumed_load_name locals name : consumed_by (load_name locals name).
Proof.
  unfold load_name.
  destruct (find _ _); [|destruct (existsb _ _)]; intros w; now exists [].
Qed.

Lemma consumed_read address count :
  consumed_by (client.read_input_registers address count).
Proof.
  intros w; unfold client.read_input_registers.
  destruct (replies w) as [|r rs] eqn:Hw; cbn; [now exists []|now exists [r]].
Qed.

Lemma consumed_bind {A B} (m : M A) (k : A -> M B) :
  consumed_by m -> (forall a, consumed_by (k a)) -> consumed_by (bind m k).
Proof.
  intros Hm Hk w; destruct (Hm w) as [c Hc].
  unfold bind; destruct (out (m w)) as [a|e| |]; cbn; try (now exists c).
  destruct (Hk a (final (m w))) as [c' Hc'].
  exists (c ++ c'); rewrite <- app_assoc, <- Hc'; exact Hc.
Qed.

Lemma consumed_for_range body :
  (forall i, consumed_by (body i)) -> forall n i, consumed_by (for_range n i body).
Proof.
  intros Hbody; induction n as [|n IH]; intros i; cbn [for_range].
  - apply consumed_ret.
  - apply consumed_bind; [apply Hbody|].
    intros [|]; [apply consumed_ret|apply IH].
Qed.

Lemma consumed_while_fuel cond body :
  consumed_by cond -> consumed_by body ->
  forall fuel, consumed_by (while_fuel fuel cond body).
Proof.
  intros Hcond Hbody; induction fuel as [|fuel IH]; cbn [while_fuel].
  - apply consumed_out_of_fuel.
  - apply consumed_bind; [assumption|].
    intros [|]; [|apply consumed_ret].
    apply consumed_bind; [assumption|intros _; apply IH].
Qed.

Lemma consumed_while cond body :
  consumed_by cond -> consumed_by body -> consumed_by (while cond body).
Proof. intros Hcond Hbody w; unfold while; now apply consumed_while_fuel. Qed.

End Consumption.

Create HintDb consumes.
#[local] Hint Resolve consumed_set_status consumed_self_status consumed_registers_index
  consumed_read consumed_load_name consumed_for_range consumed_while : consumes.

(** Decomposes a goal [consumed_by m] along the binds and branches of [m]. *)
Ltac consumed :=
  repeat (intros;
          lazymatch goal with
          | |- consumed_by (bind _ _) => apply consumed_bind
          | |- consumed_by (if ?b then _ else _) => destruct b
          | |- consumed_by (lift _) => apply consumed_lift
          | |- consumed_by (ret _) => apply consumed_ret
          | |- consumed_by (raise _) => apply consumed_raise
          | |- consumed_by (emit _) => apply consumed_emit
          | |- consumed_by _ => solve [auto with consumes nocore]
          end).

Section ConsumptionOfMethods.

Lemma consumed_timeout value : consumed_by (Gripper.timeout value).
Proof. apply consumed_emit. Qed.

Lemma consumed_sleep ms : consumed_by (time_sleep ms).
Proof. apply consumed_emit. Qed.

Lemma consumed_write_register a v : consumed_by (client.write_register a v).
Proof. apply consumed_emit. Qed.

Lemma consumed_write_registers a vs : consumed_by (client.write_registers a vs).
Proof. apply consumed_emit. Qed.

Hint Resolve consumed_timeout consumed_sleep consumed_write_register
  consumed_write_registers : consumes.

Lemma consumed_acknowledge : consumed_by Gripper.acknowledge.
Proof. unfold Gripper.acknowledge; consumed. Qed.

Lemma consumed_get_status : consumed_by Gripper.get_status.
Proof. unfold Gripper.get_status; consumed. Qed.

Hint Resolve consumed_acknowledge consumed_get_status : consumes.

Lemma consumed_handle_errors : consumed_by Gripper.handle_errors.
Proof. unfold Gripper.handle_errors; consumed. Qed.

Lemma consumed_poll i : consumed_by (Gripper.poll_process_command i).
Proof. unfold Gripper.poll_process_command; consumed. Qed.

Hint Resolve consumed_poll : consumes.

Lemma consumed_wait_process_command : consumed_by Gripper.wait_process_command.
Proof. unfold Gripper.wait_process_command; consumed. Qed.

End ConsumptionOfMethods.

#[local] Hint Resolve consumed_timeout consumed_sleep consumed_write_register
  consumed_write_registers consumed_acknowledge consumed_get_status
  consumed_handle_errors consumed_poll consumed_wait_process_command : consumes.

(** ** Returning means success was read *)

Section ReturnsOnSuccess.

Lemma returns_on_success_raise e : returns_on_success (raise e).
Proof. intros w H; discriminate H. Qed.

Lemma returns_on_success_bind {A} (m : M A) (k : A -> M unit) :
  consumed_by m ->
  (forall a, returns_on_success (k a)) ->
  returns_on_success (bind m k).
Proof.
  intros Hm Hk w; destruct (Hm w) as [c0 Hc0].
  unfold bind; destruct (out (m w)) as [a|e| |]; cbn; try discriminate.
  intros Hout.
  destruct (Hk a (final (m w)) Hout) as (c & vs & regs & tr & Hc & Hvs & Htr).
  exists (c0 ++ c), vs, regs, (trace (m w) ++ tr); repeat split.
  - rewrite <- app_assoc, <- Hc; exact Hc0.
  - assumption.
  - rewrite Htr; apply app_assoc.
Qed.

Lemma not_successful_pending w :
  replies w = [] -> out (Gripper.not_successful w) = Pending.
Proof.
  intros Hw.
  unfold Gripper.not_successful, Gripper.success, bind, client.read_input_registers.
  rewrite Hw; reflexivity.
Qed.

Lemma not_successful_index_error w rs :
  replies w = [] :: rs -> out (Gripper.not_successful w) = Raise IndexError.
Proof.
  intros Hw.
  unfold Gripper.not_successful, Gripper.success, bind, client.read_input_registers.
  rewrite Hw; reflexivity.
Qed.

Lemma succeeded_dec v : {succeeded v} + {~ succeeded v}.
Proof.
  unfold succeeded; destruct (Gripper.flag 1 v) as [e|b].
  - right; discriminate.
  - destruct (Z.eq_dec b 1) as [->|Hb]; [now left|right; congruence].
Qed.

Lemma returns_on_success_while_fuel fuel :
  returns_on_success (while_fuel fuel Gripper.not_successful (time_sleep 50)).
Proof.
  induction fuel as [|fuel IH]; intros w; cbn [while_fuel]; [discriminate|].
  destruct (replies w) as [|[|v regs] rs] eqn:Hw.
  - unfold bind; rewrite (not_successful_pending w Hw); discriminate.
  - unfold bind; rewrite (not_successful_index_error w rs Hw); discriminate.
  - destruct (succeeded_dec v) as [Hv|Hv].
    + rewrite (bind_run _ _ _ _ _ _ (not_successful_done w v regs rs Hw Hv)).
      intros _; exists [], v, regs, []; repeat split; assumption.
    + rewrite (bind_run _ _ _ _ _ _ (not_successful_wait w v regs rs Hw Hv)).
      cbv beta iota; rewrite (bind_emit (Sleep 50)); cbn [out trace final].
      intros Hout.
      destruct (IH _ Hout) as (c & vs & regs' & tr & Hc & Hvs & Htr).
      exists ((v :: regs) :: c), vs, regs', ([read_status; Sleep 50] ++ tr).
      repeat split; [|assumption|].
      * cbn [replies with_replies] in Hc; cbn [app]; f_equal; exact Hc.
      * rewrite Htr; reflexivity.
Qed.

Lemma returns_on_success_wait_success : returns_on_success Gripper.wait_success.
Proof.
  intros w; unfold Gripper.wait_success, while.
  apply returns_on_success_while_fuel.
Qed.

Lemma fuel_free_bind {A B} (m : M A) (k : A -> M B) :
  fuel_free m -> (forall a, fuel_free (k a)) -> fuel_free (bind m k).
Proof.
  intros Hm Hk w; specialize (Hm w).
  unfold bind; destruct (out (m w)) as [a|e| |]; cbn; try discriminate.
  - apply Hk.
  - congruence.
Qed.

Lemma fuel_free_for_range body :
  (forall i, fuel_free (body i)) -> forall n i, fuel_free (for_range n i body).
Proof.
  intros Hbody; induction n as [|n IH]; intros i; cbn [for_range].
  - intros w; discriminate.
  - apply fuel_free_bind; [apply Hbody|].
    intros [|]; [intros w; discriminate|apply IH].
Qed.

Lemma while_fuel_enough fuel : forall w,
  (List.length (replies w) < fuel)%nat ->
  out (while_fuel fuel Gripper.not_successful (time_sleep 50) w) <> OutOfFuel.
Proof.
  induction fuel as [|fuel IH]; intros w Hfuel; [lia|]; cbn [while_fuel].
  destruct (replies w) as [|[|v regs] rs] eqn:Hw.
  - unfold bind; rewrite (not_successful_pending w Hw); discriminate.
  - unfold bind; rewrite (not_successful_index_error w rs Hw); discriminate.
  - destruct (succeeded_dec v) as [Hv|Hv].
    + rewrite (bind_run _ _ _ _ _ _ (not_successful_done w v regs rs Hw Hv)).
      discriminate.
    + rewrite (bind_run _ _ _ _ _ _ (not_successful_wait w v regs rs Hw Hv)).
      cbv beta iota; rewrite (bind_emit (Sleep 50)); cbn [out trace final].
      apply IH; simpl in Hfuel; cbn [replies with_replies]; lia.
Qed.

Lemma fuel_free_wait_success : fuel_free Gripper.wait_success.
Proof.
  intros w; unfold Gripper.wait_success, while.
  apply while_fuel_enough; lia.
Qed.

End ReturnsOnSuccess.

(** ** No program runs out of rounds *)

Section FuelFree.

Lemma fuel_free_ret {A} (a : A) : fuel_free (ret a).
Proof. intros w; discriminate. Qed.

Lemma fuel_free_raise {A} e : fuel_free (@raise A e).
Proof. intros w; discriminate. Qed.

Lemma fuel_free_emit e : fuel_free (emit e).
Proof. intros w; discriminate. Qed.

Lemma fuel_free_set_status st : fuel_free (set_status st).
Proof. intros w; discriminate. Qed.

Lemma fuel_free_self_status : fuel_free self_status.
Proof. intros w; discriminate. Qed.

Lemma fuel_free_lift {A} (r : exn + A) : fuel_free (lift r).
Proof. destruct r; intros w; discriminate. Qed.

Lemma fuel_free_registers_index regs i : fuel_free (registers_index regs i).
Proof. unfold registers_index; destruct (nth_error regs i); intros w; discriminate. Qed.

Lemma fuel_free_read address count :
  fuel_free (client.read_input_registers address count).
Proof.
  intros w; unfold client.read_input_registers.
  destruct (replies w); discriminate.
Qed.

Lemma fuel_free_load_name locals name : fuel_free (load_name locals name).
Proof.
  unfold load_name.
  destruct (find _ _); [|destruct (existsb _ _)]; intros w; discriminate.
Qed.

Lemma fuel_free_timeout value : fuel_free (Gripper.timeout value).
Proof. apply fuel_free_emit. Qed.

Lemma fuel_free_sleep ms : fuel_free (time_sleep ms).
Proof. apply fuel_free_emit. Qed.

Lemma fuel_free_write_register a v : fuel_free (client.write_register a v).
Proof. apply fuel_free_emit. Qed.

Lemma fuel_free_write_registers a vs : fuel_free (client.write_registers a vs).
Proof. apply fuel_free_emit. Qed.

End FuelFree.

Create HintDb fuel.
#[local] Hint Resolve fuel_free_set_status fuel_free_self_status
  fuel_free_registers_index fuel_free_read fuel_free_for_range fuel_free_wait_success
  fuel_free_timeout fuel_free_sleep fuel_free_write_register fuel_free_write_registers
  fuel_free_load_name : fuel.

(** Decomposes a goal [fuel_free m] along the binds and branches of [m]. *)
Ltac fuel_free :=
  repeat (intros;
          lazymatch goal with
          | |- fuel_free (bind _ _) => apply fuel_free_bind
          | |- fuel_free (if ?b then _ else _) => destruct b
          | |- fuel_free (lift _) => apply fuel_free_lift
          | |- fuel_free (ret _) => apply fuel_free_ret
          | |- fuel_free (raise _) => apply fuel_free_raise
          | |- fuel_free (emit _) => apply fuel_free_emit
          | |- fuel_free _ => solve [auto with fuel nocore]
          end).

(** Decomposes a goal [returns_on_success m] for a program that ends in
    the success loop. *)
Ltac returns_on_success :=
  repeat (intros;
          lazymatch goal with
          | |- returns_on_success (bind _ _) =>
              apply returns_on_success_bind; [solve [consumed]|]
          | |- returns_on_success (if ?b then _ else _) => destruct b
          | |- returns_on_success (raise _) => apply returns_on_success_raise
          | |- returns_on_success Gripper.wait_success =>
              apply returns_on_success_wait_success
          end).

Section FuelFreeMethods.

Lemma fuel_free_acknowledge : fuel_free Gripper.acknowledge.
Proof. unfold Gripper.acknowledge; fuel_free. Qed.

Lemma fuel_free_get_status : fuel_free Gripper.get_status.
Proof. unfold Gripper.get_status; fuel_free. Qed.

Hint Resolve fuel_free_acknowledge fuel_free_get_status : fuel.

Lemma fuel_free_handle_errors : fuel_free Gripper.handle_errors.
Proof. unfold Gripper.handle_errors; fuel_free. Qed.

Lemma fuel_free_poll i : fuel_free (Gripper.poll_process_command i).
Proof. unfold Gripper.poll_process_command; fuel_free. Qed.

Hint Resolve fuel_free_poll : fuel.

Lemma fuel_free_wait_process_command : fuel_free Gripper.wait_process_command.
Proof. unfold Gripper.wait_process_command; fuel_free. Qed.

End FuelFreeMethods.

#[local] Hint Resolve fuel_free_acknowledge fuel_free_get_status fuel_free_handle_errors
  fuel_free_poll fuel_free_wait_process_command : fuel.

(** ** Grip *)

Section Grip.

Lemma wait_process_command_accepted w bs va regs rs :
  replies w = words bs ++ (va :: regs) :: rs ->
  Forall busy bs ->
  (List.length bs < 1000)%nat ->
  accepted va ->
  Gripper.wait_process_command w =
    {| out := Ret tt; trace := repeat read_status (S (List.length bs));
       final := with_replies w rs |}.
Proof.
  intros Hw Hbs Hlen Hva; unfold Gripper.wait_process_command.
  rewrite (bind_run _ _ _ _ _ _
             (for_range_accepted bs 1000 0 w va regs rs Hw Hbs Hlen Hva)).
  cbn [out trace final ret]; now rewrite app_nil_r.
Qed.

Lemma force_in_range force :
  1 <= force <= 4 -> negb ((1 <=? force) && (force <=? 4)) = false.
Proof.
  intros H; apply negb_false_iff, andb_true_iff; split; apply Z.leb_le; lia.
Qed.

Lemma grip_run force w v0 regs0 st bs va regsa waiting vs regss rs :
  1 <= force <= 4 ->
  replies w =
    (v0 :: regs0) :: words bs ++ (va :: regsa) :: words waiting ++ (vs :: regss) :: rs ->
  Gripper.status_field v0 = inr st ->
  Forall busy bs -> (List.length bs < 1000)%nat -> accepted va ->
  Forall (fun v => ~ succeeded v) waiting -> succeeded vs ->
  Gripper.grip (PyInt force) w =
    {| out := Ret tt;
       trace := read_status :: recovery_trace st
                  ++ [WriteRegisters 0x0801 [0x0400; (4 - force) * 0x0100; 0; 0];
                      Sleep 50;
                      WriteRegisters 0x0801 [0x8400; (4 - force) * 0x0100; 0; 0]]
                  ++ repeat read_status (S (List.length bs))
                  ++ Sleep 1000 :: success_polling waiting;
       final := with_status w st rs |}.
Proof.
  intros Hforce Hw Hst Hbs Hlen Hva Hwait Hvs.
  unfold Gripper.grip; cbn [isinstance_int negb int_value].
  rewrite (bind_run _ _ _ _ _ _ (handle_errors_run w v0 regs0 _ st Hw Hst)).
  cbv beta zeta; rewrite (force_in_range force Hforce).
  unfold client.write_registers.
  rewrite bind_emit; cbv beta.
  rewrite (bind_emit (Sleep 50)); cbv beta.
  rewrite bind_emit; cbv beta.
  rewrite (bind_run _ _ _ _ _ _
             (wait_process_command_accepted
                (with_status w st (words bs ++ (va :: regsa)
                                     :: words waiting ++ (vs :: regss) :: rs))
                bs va regsa (words waiting ++ (vs :: regss) :: rs)
                eq_refl Hbs Hlen Hva)).
  cbv beta.
  rewrite (bind_emit (Sleep 1000)); cbv beta.
  rewrite (wait_success_run
             (with_replies
                (with_status w st (words bs ++ (va :: regsa)
                                     :: words waiting ++ (vs :: regss) :: rs))
                (words waiting ++ (vs :: regss) :: rs))
             waiting vs regss rs eq_refl Hwait Hvs).
  cbn [out trace final]; reflexivity.
Qed.

Lemma grip_returns_on_success force : returns_on_success (Gripper.grip force).
Proof.
  unfold Gripper.grip; destruct (isinstance_int force); cbn [negb]; cbv zeta;
    returns_on_success.
Qed.

Lemma grip_fuel_free force : fuel_free (Gripper.grip force).
Proof.
  unfold Gripper.grip; destruct (isinstance_int force); cbn [negb]; cbv zeta;
    fuel_free.
Qed.

End Grip.

(** C1: for a force level from 1 to 4, [grip] writes
    [[0x0400, (4 - force) * 0x0100, 0, 0]] and then
    [[0x8400, (4 - force) * 0x0100, 0, 0]] to address [0x0801], the force
    word being [0x0300], [0x0200], [0x0100], [0x0000] for the levels 1 to
    4; on a link that accepts the command and then shows success, it
    polls for acceptance, waits, and returns at the first status word
    whose success flag is 1; and whenever it returns, the last thing it
    did was to read a status word whose success flag is 1. *)
Theorem grip_writes_payloads_then_waits_for_success :
  forall force : Z,
    1 <= force <= 4 ->
    (forall w v0 regs0 st bs va regsa waiting vs regss rs,
        replies w =
          (v0 :: regs0) :: words bs ++ (va :: regsa)
                        :: words waiting ++ (vs :: regss) :: rs ->
        Gripper.status_field v0 = inr st ->
        Forall busy bs -> (List.length bs < 1000)%nat -> accepted va ->
        Forall (fun v => ~ succeeded v) waiting -> succeeded vs ->
        Gripper.grip (PyInt force) w =
          {| out := Ret tt;
             trace := read_status :: recovery_trace st
                        ++ [WriteRegisters 0x0801 [0x0400; (4 - force) * 0x0100; 0; 0];
                            Sleep 50;
                            WriteRegisters 0x0801 [0x8400; (4 - force) * 0x0100; 0; 0]]
                        ++ repeat read_status (S (List.length bs))
                        ++ Sleep 1000 :: success_polling waiting;
             final := with_status w st rs |})
    /\ (4 - force) * 0x0100
       = nth (Z.to_nat (force - 1)) [0x0300; 0x0200; 0x0100; 0x0000] 0
    /\ returns_on_success (Gripper.grip (PyInt force))
    /\ fuel_free (Gripper.grip (PyInt force)).
Proof.
  intros force Hforce; repeat apply conj.
  - intros; eapply grip_run; eassumption.
  - assert (force = 1 \/ force = 2 \/ force = 3 \/ force = 4) as [->|[->|[->| ->]]] by lia;
      reflexivity.
  - apply grip_returns_on_success.
  - apply grip_fuel_free.
Qed.

Lemma grip_force_2_witness :
  Gripper.grip (PyInt 2) (session (words [0x0300; 0x8000; 0x8000; 0xC000]%N)) =
    {| out := Ret tt;
       trace := [read_status;
                 WriteRegisters 0x0801 [0x0400; 0x0200; 0; 0];
                 Sleep 50;
                 WriteRegisters 0x0801 [0x8400; 0x0200; 0; 0];
                 read_status; Sleep 1000;
                 read_status; Sleep 50; read_status];
       final := {| status := STATUS_READY; replies := []; link_ok := true |} |}.
Proof.
  destruct (grip_writes_payloads_then_waits_for_success 2 ltac:(lia)) as [H _].
  apply (H (session (words [0x0300; 0x8000; 0x8000; 0xC000]%N))
           0x0300%N [] 3 [] 0x8000%N [] [0x8000%N] 0xC000%N [] []).
  - reflexivity.
  - reflexivity.
  - constructor.
  - simpl; lia.
  - unfold accepted; simpl; lia.
  - constructor; [|constructor]. unfold succeeded; vm_compute; discriminate.
  - reflexivity.
Defined.

Lemma wait_process_command_times_out_witness :
  Gripper.wait_process_command (session (words (repeat 0%N 1000))) =
    {| out := Ret tt;
       trace := repeat read_status 1000
                  ++ [WriteRegister 0x1120 1; Sleep 100;
                      WriteRegister 0x1120 0; Sleep 100;
                      WriteRegister 0x0801 0x0100; Sleep 100;
                      WriteRegister 0x0801 0x8100];
       final := session [] |}.
Proof.
  destruct (wait_process_command_accepts_or_times_out
              (session (words (repeat 0%N 1000))) (repeat 0%N 1000) [])
    as (_ & H & _).
  - vm_compute; reflexivity.
  - apply Forall_forall; intros x Hx; apply repeat_spec in Hx; subst x.
    unfold busy; simpl; lia.
  - exact (H eq_refl).
Defined.

(** ** The error-recovery check *)

Section ErrorRecovery.

Lemma check_then w v regs rs st (k : unit -> M unit) :
  replies w = (v :: regs) :: rs ->
  Gripper.status_field v = inr st ->
  trace (bind Gripper.handle_errors k w)
  = read_status :: recovery_trace st ++ trace (k tt (with_status w st rs)).
Proof.
  intros Hw Hst.
  rewrite (bind_run _ _ _ _ _ _ (handle_errors_run w v regs rs st Hw Hst)).
  reflexivity.
Qed.

End ErrorRecovery.

(** C5: every command operation begins with the error-recovery check,
    which reads the status register afresh.  For status Error the check
    writes exactly the acknowledge pair, [0x0100] then [0x8100] to
    [0x0801]; for OutOfSpecification it writes 1 and then 0 to the
    timeout register [0x1120], with pauses, and then the acknowledge
    pair; for Ready it writes nothing.  Whatever the operation writes
    comes after that. *)
Theorem error_recovery_precedes_every_command :
  forall (op : operation) (w : world) (v : N) (regs : list N) (rs : list (list N)) (st : Z),
    replies w = (v :: regs) :: rs ->
    Gripper.status_field v = inr st ->
    Gripper.handle_errors w =
      {| out := Ret tt; trace := read_status :: recovery_trace st;
         final := with_status w st rs |}
    /\ (exists rest, trace (perform op w) = read_status :: recovery_trace st ++ rest)
    /\ recovery_trace STATUS_ERROR =
         [WriteRegister 0x0801 0x0100; Sleep 100; WriteRegister 0x0801 0x8100; Sleep 100]
    /\ recovery_trace STATUS_OOS =
         [WriteRegister 0x1120 1; Sleep 100; WriteRegister 0x1120 0; Sleep 100;
          WriteRegister 0x0801 0x0100; Sleep 100; WriteRegister 0x0801 0x8100; Sleep 100]
    /\ recovery_trace STATUS_READY = [].
Proof.
  intros op w v regs rs st Hw Hst; repeat apply conj; try reflexivity.
  - exact (handle_errors_run w v regs rs st Hw Hst).
  - destruct op; cbn [perform];
      unfold Gripper.grip, Gripper.release, Gripper.set_position, Gripper.stop,
        Gripper.reference, Gripper.calibrate, Gripper.measure_stroke;
      cbn [isinstance_int negb];
      rewrite (check_then w v regs rs st _ Hw Hst); eexists; reflexivity.
Qed.

Lemma error_recovery_witness :
  Gripper.handle_errors (session [[0x0000%N]]) =
    {| out := Ret tt;
       trace := [read_status; WriteRegister 0x0801 0x0100; Sleep 100;
                 WriteRegister 0x0801 0x8100; Sleep 100];
       final := session [] |}
  /\ exists rest,
      trace (Gripper.stop (session [[0x0000%N]])) =
        [read_status; WriteRegister 0x0801 0x0100; Sleep 100;
         WriteRegister 0x0801 0x8100; Sleep 100] ++ rest.
Proof.
  destruct (error_recovery_precedes_every_command
              OpStop (session [[0x0000%N]]) 0%N [] [] STATUS_ERROR eq_refl eq_refl)
    as (H1 & H2 & _).
  split; [exact H1|exact H2].
Defined.

(** ** The cached status is refreshed before it is used *)

Section StatusBlind.

Lemma blind_ret {A} (a : A) : status_blind (ret a).
Proof. intros w1 w2 H; cbn; auto. Qed.

Lemma blind_raise {A} e : status_blind (@raise A e).
Proof. intros w1 w2 H; cbn; auto. Qed.

Lemma blind_out_of_fuel {A} : status_blind (@out_of_fuel A).
Proof. intros w1 w2 H; cbn; auto. Qed.

Lemma blind_emit e : status_blind (emit e).
Proof. intros w1 w2 H; cbn; auto. Qed.

Lemma blind_lift {A} (r : exn + A) : status_blind (lift r).
Proof. destruct r; intros w1 w2 H; cbn; auto. Qed.

Lemma blind_registers_index regs i : status_blind (registers_index regs i).
Proof.
  unfold registers_index; destruct (nth_error regs i); intros w1 w2 H; cbn; auto.
Qed.

Lemma blind_load_name locals name : status_blind (load_name locals name).
Proof.
  unfold load_name.
  destruct (find _ _); [|destruct (existsb _ _)]; intros w1 w2 H; cbn; auto.
Qed.

Lemma blind_read address count :
  status_blind (client.read_input_registers address count).
Proof.
  intros w1 w2 [Hr Hl]; unfold client.read_input_registers.
  rewrite <- Hr; destruct (replies w1) as [|r rs] eqn:E; cbn.
  - repeat split; auto; congruence.
  - repeat split; auto.
Qed.

Lemma blind_bind {A B} (m : M A) (k : A -> M B) :
  status_blind m -> (forall a, status_blind (k a)) -> status_blind (bind m k).
Proof.
  intros Hm Hk w1 w2 H; destruct (Hm w1 w2 H) as (Ho & Ht & Hf).
  unfold bind; rewrite <- Ho, <- Ht.
  destruct (out (m w1)) as [a|e| |]; cbn; auto.
  destruct (Hk a _ _ Hf) as (Ho' & Ht' & Hf').
  rewrite Ho', Ht'; auto.
Qed.

Lemma blind_for_range body :
  (forall i, status_blind (body i)) -> forall n i, status_blind (for_range n i body).
Proof.
  intros Hbody; induction n as [|n IH]; intros i; cbn [for_range].
  - apply blind_ret.
  - apply blind_bind; [apply Hbody|].
    intros [|]; [apply blind_ret|apply IH].
Qed.

Lemma blind_while_fuel cond body :
  status_blind cond -> status_blind body ->
  forall fuel, status_blind (while_fuel fuel cond body).
Proof.
  intros Hcond Hbody; induction fuel as [|fuel IH]; cbn [while_fuel].
  - apply blind_out_of_fuel.
  - apply blind_bind; [assumption|].
    intros [|]; [|apply blind_ret].
    apply blind_bind; [assumption|intros _; apply IH].
Qed.

Lemma blind_while cond body :
  status_blind cond -> status_blind body -> status_blind (while cond body).
Proof.
  intros Hcond Hbody w1 w2 H; unfold while.
  destruct H as [Hr Hl]; rewrite <- Hr.
  apply blind_while_fuel; [assumption|assumption|split; assumption].
Qed.

Lemma blind_set_then_read st : status_blind (bind (set_status st) (fun _ => self_status)).
Proof. intros w1 w2 [Hr Hl]; cbn; repeat split; assumption. Qed.

End StatusBlind.

Create HintDb blind.
#[local] Hint Resolve blind_registers_index blind_load_name blind_read blind_for_range
  blind_while : blind.

(** Decomposes a goal [status_blind m] along the binds and branches of [m]. *)
Ltac blind :=
  repeat (intros;
          lazymatch goal with
          | |- status_blind (bind (set_status _) _) => apply blind_set_then_read
          | |- status_blind (bind _ _) => apply blind_bind
          | |- status_blind (if ?b then _ else _) => destruct b
          | |- status_blind (lift _) => apply blind_lift
          | |- status_blind (ret _) => apply blind_ret
          | |- status_blind (raise _) => apply blind_raise
          | |- status_blind (emit _) => apply blind_emit
          | |- status_blind _ => first [assumption | solve [auto with blind nocore]]
          end).

Section StatusBlindMethods.

Lemma blind_timeout value : status_blind (Gripper.timeout value).
Proof. apply blind_emit. Qed.

Lemma blind_sleep ms : status_blind (time_sleep ms).
Proof. apply blind_emit. Qed.

Lemma blind_write_register a v : status_blind (client.write_register a v).
Proof. apply blind_emit. Qed.

Lemma blind_write_registers a vs : status_blind (client.write_registers a vs).
Proof. apply blind_emit. Qed.

Hint Resolve blind_timeout blind_sleep blind_write_register blind_write_registers : blind.

Lemma blind_acknowledge : status_blind Gripper.acknowledge.
Proof. unfold Gripper.acknowledge; blind. Qed.

Lemma blind_get_status : status_blind Gripper.get_status.
Proof. unfold Gripper.get_status; blind. Qed.

Lemma blind_success : status_blind Gripper.success.
Proof. unfold Gripper.success; blind. Qed.

Hint Resolve blind_acknowledge blind_get_status blind_success : blind.

Lemma blind_not_successful : status_blind Gripper.not_successful.
Proof. unfold Gripper.not_successful; blind. Qed.

Lemma blind_poll i : status_blind (Gripper.poll_process_command i).
Proof. unfold Gripper.poll_process_command; blind. Qed.

Hint Resolve blind_not_successful blind_poll : blind.

Lemma blind_wait_success : status_blind Gripper.wait_success.
Proof. unfold Gripper.wait_success; blind. Qed.

Lemma blind_wait_process_command : status_blind Gripper.wait_process_command.
Proof. unfold Gripper.wait_process_command; blind. Qed.

(** The check overwrites the cached status before it looks at it. *)
Lemma blind_handle_errors : status_blind Gripper.handle_errors.
Proof.
  intros w1 w2 [Hr Hl].
  destruct (replies w1) as [|[|v regs] rs] eqn:E1; symmetry in Hr.
  - unfold Gripper.handle_errors.
    rewrite (bind_pending _ _ _ _ _ (get_status_pending w1 E1)),
            (bind_pending _ _ _ _ _ (get_status_pending w2 Hr)).
    cbn; repeat split; congruence.
  - unfold Gripper.handle_errors.
    rewrite (bind_raise _ _ _ _ _ _ (get_status_index_error w1 rs E1)),
            (bind_raise _ _ _ _ _ _ (get_status_index_error w2 rs Hr)).
    cbn; repeat split; assumption.
  - destruct (status_field_total v) as [st Hst].
    rewrite (handle_errors_run w1 v regs rs st E1 Hst),
            (handle_errors_run w2 v regs rs st Hr Hst).
    cbn; repeat split; assumption.
Qed.

End StatusBlindMethods.

#[local] Hint Resolve blind_timeout blind_sleep blind_write_register blind_write_registers
  blind_acknowledge blind_get_status blind_success blind_not_successful blind_poll
  blind_wait_success blind_wait_process_command blind_handle_errors : blind.

(** ** Argument checks *)

Section ArgumentChecks.

Lemma force_out_of_range force :
  ~ 1 <= force <= 4 -> negb ((1 <=? force) && (force <=? 4)) = true.
Proof.
  intros H; apply negb_true_iff, andb_false_iff.
  destruct (Z.leb_spec 1 force); [right; apply Z.leb_gt; lia|now left].
Qed.

Lemma target_out_of_range target :
  ~ 0 <= target <= 100 -> negb ((0 <=? target) && (target <=? 100)) = true.
Proof.
  intros H; apply negb_true_iff, andb_false_iff.
  destruct (Z.leb_spec 0 target); [right; apply Z.leb_gt; lia|now left].
Qed.

Lemma target_in_range target :
  0 <= target <= 100 -> negb ((0 <=? target) && (target <=? 100)) = false.
Proof.
  intros H; apply negb_false_iff, andb_true_iff; split; apply Z.leb_le; lia.
Qed.

End ArgumentChecks.

(** C6, as the code has it: an integer argument out of range (a force
    outside 1..4 for [grip], a target outside 0..100 for
    [set_position]) is refused with the range error only after the
    error-recovery check has run: the status register is read and, for
    status Error or OutOfSpecification, the recovery writes are made.
    No command payload is written. *)
Theorem range_error_follows_the_recovery_check :
  forall (x : Z) (w : world) (v : N) (regs : list N) (rs : list (list N)) (st : Z),
    replies w = (v :: regs) :: rs ->
    Gripper.status_field v = inr st ->
    (~ 1 <= x <= 4 ->
     Gripper.grip (PyInt x) w =
       {| out := Raise (Exception "Force value out of range (Must be between 1 and 4)");
          trace := read_status :: recovery_trace st;
          final := with_status w st rs |})
    /\ (~ 0 <= x <= 100 ->
        Gripper.set_position (PyInt x) w =
          {| out := Raise (Exception "Target position value out of range (between 0 and 100)");
             trace := read_status :: recovery_trace st;
             final := with_status w st rs |}).
Proof.
  intros x w v regs rs st Hw Hst; split; intros Hx.
  - unfold Gripper.grip; cbn [isinstance_int negb int_value].
    rewrite (bind_run _ _ _ _ _ _ (handle_errors_run w v regs rs st Hw Hst)).
    cbv beta zeta; rewrite (force_out_of_range x Hx).
    cbn [raise out trace final]; now rewrite app_nil_r.
  - unfold Gripper.set_position; cbn [isinstance_int negb int_value].
    rewrite (bind_run _ _ _ _ _ _ (handle_errors_run w v regs rs st Hw Hst)).
    cbv beta zeta; rewrite (target_out_of_range x Hx).
    cbn [raise out trace final]; now rewrite app_nil_r.
Qed.

Lemma range_error_witness :
  Gripper.grip (PyInt 7) (session [[0x0300%N]]) =
    {| out := Raise (Exception "Force value out of range (Must be between 1 and 4)");
       trace := [read_status];
       final := {| status := STATUS_READY; replies := []; link_ok := true |} |}.
Proof.
  destruct (range_error_follows_the_recovery_check
              7 (session [[0x0300%N]]) 0x0300%N [] [] STATUS_READY eq_refl eq_refl)
    as [H _].
  apply H; lia.
Defined.

(** C6, as stated, fails: [grip(5)] on a gripper in status Error reads
    the status register and writes the acknowledge pair before it
    raises the range error. *)
Lemma grip_range_error_comes_after_io :
  Gripper.grip (PyInt 5) (session [[0x0000%N]]) =
    {| out := Raise (Exception "Force value out of range (Must be between 1 and 4)");
       trace := [ReadInputRegisters 0x0001 1;
                 WriteRegister 0x0801 0x0100; Sleep 100;
                 WriteRegister 0x0801 0x8100; Sleep 100];
       final := session [] |}
  /\ trace (Gripper.grip (PyInt 5) (session [[0x0000%N]])) <> [].
Proof. split; [vm_compute; reflexivity|vm_compute; discriminate]. Qed.

(** ** Maintenance required *)

Section Maintenance.

Lemma after_quiet_check (k : unit -> M unit) w1 w2 v1 v2 regs1 regs2 rs st1 st2 :
  replies w1 = (v1 :: regs1) :: rs ->
  replies w2 = (v2 :: regs2) :: rs ->
  link_ok w1 = link_ok w2 ->
  Gripper.status_field v1 = inr st1 ->
  Gripper.status_field v2 = inr st2 ->
  recovery_trace st1 = recovery_trace st2 ->
  status_blind (k tt) ->
  out (bind Gripper.handle_errors k w1) = out (bind Gripper.handle_errors k w2)
  /\ trace (bind Gripper.handle_errors k w1) = trace (bind Gripper.handle_errors k w2).
Proof.
  intros Hw1 Hw2 Hl Hst1 Hst2 Hrec Hk.
  rewrite (bind_run _ _ _ _ _ _ (handle_errors_run w1 v1 regs1 rs st1 Hw1 Hst1)).
  rewrite (bind_run _ _ _ _ _ _ (handle_errors_run w2 v2 regs2 rs st2 Hw2 Hst2)).
  destruct (Hk (with_status w1 st1 rs) (with_status w2 st2 rs)) as (Ho & Ht & _).
  { split; [reflexivity|exact Hl]. }
  cbn [out trace]; rewrite Ho, Ht, Hrec; split; reflexivity.
Qed.

Lemma blind_grip force : status_blind (Gripper.grip force).
Proof.
  unfold Gripper.grip; destruct (isinstance_int force); cbn [negb]; cbv zeta; blind.
Qed.

Lemma blind_release : status_blind Gripper.release.
Proof. unfold Gripper.release; blind. Qed.

(** Every operation is the check followed by a continuation that never
    looks at the status the session started with. *)
Lemma perform_after_check op :
  exists k : unit -> M unit,
    (forall w, perform op w = bind Gripper.handle_errors k w)
    /\ status_blind (k tt).
Proof.
  destruct op; cbn [perform];
    unfold Gripper.grip, Gripper.release, Gripper.set_position, Gripper.stop,
      Gripper.reference, Gripper.calibrate, Gripper.measure_stroke;
    cbn [isinstance_int negb int_value]; cbv zeta;
    (eexists; split; [intros w; reflexivity|]); cbv beta.
  - blind.
  - blind.
  - destruct (negb _); [apply blind_raise|].
    destruct (_ <? 3); [apply blind_grip|].
    destruct (_ >? 97); [apply blind_release|].
    generalize (Gripper.position_bin_of (Gripper.position_mm_of target_position)).
    intros position_bin; blind.
  - blind.
  - blind.
  - blind.
  - blind.
Qed.

End Maintenance.

(** C7, as the code has it: the error-recovery check has no branch for
    MaintenanceRequired.  It takes no recovery action (it only reads
    the status register) and raises no error; the operation then goes
    on exactly as it does for a gripper that reports Ready. *)
Theorem maintenance_required_is_not_blocking :
  forall (op : operation) (w : world) (v v' : N) (regs regs' : list N) (rs : list (list N)),
    replies w = (v :: regs) :: rs ->
    Gripper.status_field v = inr STATUS_MAINTENANCE ->
    Gripper.status_field v' = inr STATUS_READY ->
    Gripper.handle_errors w =
      {| out := Ret tt; trace := [read_status];
         final := with_status w STATUS_MAINTENANCE rs |}
    /\ out (perform op w) = out (perform op (with_replies w ((v' :: regs') :: rs)))
    /\ trace (perform op w) = trace (perform op (with_replies w ((v' :: regs') :: rs))).
Proof.
  intros op w v v' regs regs' rs Hw Hv Hv'; split.
  - exact (handle_errors_run w v regs rs STATUS_MAINTENANCE Hw Hv).
  - destruct (perform_after_check op) as (k & Hk & Hblind).
    rewrite !Hk.
    exact (after_quiet_check k w (with_replies w ((v' :: regs') :: rs))
             v v' regs regs' rs STATUS_MAINTENANCE STATUS_READY
             Hw eq_refl eq_refl Hv Hv' eq_refl Hblind).
Qed.

Lemma maintenance_required_witness :
  out (Gripper.reference (session [[0x0200%N]]))
  = out (Gripper.reference (session [[0x0300%N]]))
  /\ trace (Gripper.reference (session [[0x0200%N]]))
     = trace (Gripper.reference (session [[0x0300%N]])).
Proof.
  destruct (maintenance_required_is_not_blocking
              OpReference (session [[0x0200%N]]) 0x0200%N 0x0300%N [] [] []
              eq_refl eq_refl eq_refl) as (_ & H).
  exact H.
Defined.

(** C7, as stated, fails: on a gripper that reports MaintenanceRequired
    [reference] raises nothing and writes its command pair. *)
Lemma reference_runs_under_maintenance :
  Gripper.status_field 0x0200 = inr STATUS_MAINTENANCE
  /\ Gripper.reference (session [[0x0200%N]]) =
       {| out := Ret tt;
          trace := [ReadInputRegisters 0x0001 1;
                    WriteRegister 0x0801 0x0200; Sleep 100;
                    WriteRegister 0x0801 0x8200];
          final := {| status := STATUS_MAINTENANCE; replies := []; link_ok := true |} |}.
Proof. split; vm_compute; reflexivity. Qed.

(** ** Moving to a position *)

Section SetPosition.

Lemma bind_ret_l {A B} (a : A) (k : A -> M B) w : bind (ret a) k w = k a w.
Proof. unfold bind, ret; cbn; destruct (k a w); reflexivity. Qed.

Lemma bind_ext {A B} (m : M A) (k1 k2 : A -> M B) w :
  (forall a w', k1 a w' = k2 a w') -> bind m k1 w = bind m k2 w.
Proof. intros H; unfold bind; destruct (out (m w)); try reflexivity; now rewrite H. Qed.

Lemma in_percentages p : 0 <= p <= 100 -> In p percentages.
Proof.
  intros H; unfold percentages.
  rewrite <- (Z2Nat.id p) by lia.
  apply in_map, in_seq; lia.
Qed.

Lemma move_words_checked : forallb move_words_ok percentages = true.
Proof. vm_compute; reflexivity. Qed.

Lemma encode_position_inv target hi lo :
  encode_position target = inr (hi, lo) ->
  exists position_bin,
    Gripper.position_bin_of (Gripper.position_mm_of target) = inr position_bin
    /\ PyString.int_base2 (PyString.slice_to 16 position_bin) = inr hi
    /\ PyString.int_base2 (PyString.slice_from 16 position_bin) = inr lo.
Proof.
  unfold encode_position.
  destruct (Gripper.position_bin_of _) as [e|position_bin]; [discriminate|].
  destruct (PyString.int_base2 (PyString.slice_to 16 position_bin)) as [e|hi'] eqn:Hhi;
    [discriminate|].
  destruct (PyString.int_base2 (PyString.slice_from 16 position_bin)) as [e|lo'] eqn:Hlo;
    [discriminate|].
  intros [= <- <-]; now exists position_bin.
Qed.

Lemma set_position_low target w :
  0 <= target < 3 ->
  Gripper.set_position (PyInt target) w
  = (Gripper.handle_errors ;; Gripper.grip (PyInt 4)) w.
Proof.
  intros H; unfold Gripper.set_position; cbn [isinstance_int negb int_value].
  apply bind_ext; intros _ w'; cbv zeta.
  rewrite target_in_range by lia.
  destruct (Z.ltb_spec target 3); [reflexivity|lia].
Qed.

Lemma set_position_high target w :
  97 < target <= 100 ->
  Gripper.set_position (PyInt target) w
  = (Gripper.handle_errors ;; Gripper.release) w.
Proof.
  intros H; unfold Gripper.set_position; cbn [isinstance_int negb int_value].
  apply bind_ext; intros _ w'; cbv zeta.
  rewrite target_in_range by lia.
  destruct (Z.ltb_spec target 3); [lia|].
  destruct (Z.gtb_spec target 97); [reflexivity|lia].
Qed.

Lemma set_position_move target hi lo w :
  3 <= target <= 97 ->
  encode_position target = inr (hi, lo) ->
  Gripper.set_position (PyInt target) w
  = (Gripper.handle_errors ;;
     client.write_registers 0x0801 [0x0500; 0; hi; lo] ;;
     time_sleep 50 ;;
     client.write_registers 0x0801 [0x8500; 0; hi; lo] ;;
     Gripper.wait_process_command) w.
Proof.
  intros H Henc.
  destruct (encode_position_inv target hi lo Henc) as (position_bin & Hbin & Hhi & Hlo).
  unfold Gripper.set_position; cbn [isinstance_int negb int_value].
  apply bind_ext; intros _ w'; cbv zeta.
  rewrite target_in_range by lia.
  destruct (Z.ltb_spec target 3); [lia|].
  destruct (Z.gtb_spec target 97); [lia|].
  rewrite Hbin; cbn [lift]; rewrite bind_ret_l.
  rewrite Hhi, Hlo; cbn [lift]; rewrite !bind_ret_l.
  apply bind_ext; intros _ w1; apply bind_ext; intros _ w2.
  now rewrite !bind_ret_l.
Qed.

Lemma move_run hi lo w v0 regs0 st bs va regsa rs :
  replies w = (v0 :: regs0) :: words bs ++ (va :: regsa) :: rs ->
  Gripper.status_field v0 = inr st ->
  Forall busy bs -> (List.length bs < 1000)%nat -> accepted va ->
  (Gripper.handle_errors ;;
   client.write_registers 0x0801 [0x0500; 0; hi; lo] ;;
   time_sleep 50 ;;
   client.write_registers 0x0801 [0x8500; 0; hi; lo] ;;
   Gripper.wait_process_command) w =
    {| out := Ret tt;
       trace := read_status :: recovery_trace st
                  ++ [WriteRegisters 0x0801 [0x0500; 0; hi; lo];
                      Sleep 50;
                      WriteRegisters 0x0801 [0x8500; 0; hi; lo]]
                  ++ repeat read_status (S (List.length bs));
       final := with_status w st rs |}.
Proof.
  intros Hw Hst Hbs Hlen Hva.
  rewrite (bind_run _ _ _ _ _ _ (handle_errors_run w v0 regs0 _ st Hw Hst)).
  unfold client.write_registers.
  rewrite bind_emit; cbv beta.
  rewrite (bind_emit (Sleep 50)); cbv beta.
  rewrite bind_emit; cbv beta.
  rewrite (wait_process_command_accepted
             (with_status w st (words bs ++ (va :: regsa) :: rs))
             bs va regsa rs eq_refl Hbs Hlen Hva).
  reflexivity.
Qed.

End SetPosition.

Lemma in_move_targets target : 3 <= target <= 97 -> In target move_targets.
Proof.
  intros H; unfold move_targets.
  rewrite <- (Z2Nat.id target) by lia.
  apply in_map, in_seq; lia.
Qed.

Lemma move_words_encode_checked : forallb move_words_encode move_targets = true.
Proof. vm_compute; reflexivity. Qed.

Lemma delegation_run (m : M unit) w v0 regs0 st0 rs :
  replies w = (v0 :: regs0) :: rs ->
  Gripper.status_field v0 = inr st0 ->
  out ((Gripper.handle_errors ;; m) w) = out (m (with_status w st0 rs))
  /\ trace ((Gripper.handle_errors ;; m) w)
     = read_status :: recovery_trace st0 ++ trace (m (with_status w st0 rs)).
Proof.
  intros Hw Hst.
  rewrite (bind_run _ _ _ _ _ _ (handle_errors_run w v0 regs0 rs st0 Hw Hst)).
  split; reflexivity.
Qed.

(** C4, as the code has it: for an integer target from 0 to 100,
    [set_position] first runs the error-recovery check.  Below 3 it
    then is [grip()], that is [grip(4)], and above 97 it is
    [release()]: the delegate runs the check again, on the next status
    word, so the traffic is that of the check followed by that of
    [grip(4)] (or [release]) on what the device answers next, not that
    of [grip(4)] alone.  From 3 to 97 it writes the move pair [0x0500],
    [0x8500] with the two halves of the binary32 pattern of
    [((100 - target) / 100.) * POSITION_MAX], a number within [2 ^ -18]
    of the exact [(100 - target) * 1333103 / 3276800] mm, and only polls
    for acceptance: it returns at the first status word above [0x7FFF],
    whatever its success flag. *)
Theorem set_position_delegates_or_moves :
  forall target : Z,
    0 <= target <= 100 ->
    (target < 3 ->
     (forall w, Gripper.set_position (PyInt target) w
                = (Gripper.handle_errors ;; Gripper.grip (PyInt 4)) w)
     /\ (forall w v0 regs0 st0 rs,
           replies w = (v0 :: regs0) :: rs ->
           Gripper.status_field v0 = inr st0 ->
           out (Gripper.set_position (PyInt target) w)
           = out (Gripper.grip (PyInt 4) (with_status w st0 rs))
           /\ trace (Gripper.set_position (PyInt target) w)
              = read_status :: recovery_trace st0
                  ++ trace (Gripper.grip (PyInt 4) (with_status w st0 rs))))
    /\ (97 < target ->
        (forall w, Gripper.set_position (PyInt target) w
                   = (Gripper.handle_errors ;; Gripper.release) w)
        /\ (forall w v0 regs0 st0 rs,
              replies w = (v0 :: regs0) :: rs ->
              Gripper.status_field v0 = inr st0 ->
              out (Gripper.set_position (PyInt target) w)
              = out (Gripper.release (with_status w st0 rs))
              /\ trace (Gripper.set_position (PyInt target) w)
                 = read_status :: recovery_trace st0
                     ++ trace (Gripper.release (with_status w st0 rs))))
    /\ (3 <= target <= 97 ->
        exists hi lo : Z,
          encode_position target = inr (hi, lo)
          /\ hi * 65536 + lo
             = Z.of_N (PyFloat.bits_of_single
                         (PyFloat.to_single
                            (PyFloat.mul
                               (PyFloat.div (PyFloat.of_int (100 - target))
                                            PyFloat.hundred)
                               POSITION_MAX)))
          /\ (exists (m : positive) (e : Z),
                PyFloat.single_of_bits (Z.to_N (hi * 65536 + lo)) = S754_finite false m e
                /\ e <= 0
                /\ Z.abs (Zpos m * 3276800 - (100 - target) * 1333103 * 2 ^ (- e)) * 262144
                   <= 3276800 * 2 ^ (- e))
          /\ 0 <= hi < 65536 /\ 0 <= lo < 65536
          /\ (forall w,
                Gripper.set_position (PyInt target) w
                = (Gripper.handle_errors ;;
                   client.write_registers 0x0801 [0x0500; 0; hi; lo] ;;
                   time_sleep 50 ;;
                   client.write_registers 0x0801 [0x8500; 0; hi; lo] ;;
                   Gripper.wait_process_command) w)
          /\ (forall w v0 regs0 st bs va regsa rs,
                replies w = (v0 :: regs0) :: words bs ++ (va :: regsa) :: rs ->
                Gripper.status_field v0 = inr st ->
                Forall busy bs -> (List.length bs < 1000)%nat -> accepted va ->
                Gripper.set_position (PyInt target) w =
                  {| out := Ret tt;
                     trace := read_status :: recovery_trace st
                                ++ [WriteRegisters 0x0801 [0x0500; 0; hi; lo];
                                    Sleep 50;
                                    WriteRegisters 0x0801 [0x8500; 0; hi; lo]]
                                ++ repeat read_status (S (List.length bs));
                     final := with_status w st rs |})).
Proof.
  intros target Htarget; split; [|split].
  - intros H; split.
    + intros w; apply set_position_low; lia.
    + intros w v0 regs0 st0 rs Hw Hst.
      rewrite (set_position_low target w ltac:(lia)).
      exact (delegation_run (Gripper.grip (PyInt 4)) w v0 regs0 st0 rs Hw Hst).
  - intros H; split.
    + intros w; apply set_position_high; lia.
    + intros w v0 regs0 st0 rs Hw Hst.
      rewrite (set_position_high target w ltac:(lia)).
      exact (delegation_run Gripper.release w v0 regs0 st0 rs Hw Hst).
  - intros H.
    pose proof move_words_checked as Hall.
    rewrite forallb_forall in Hall.
    specialize (Hall target (in_percentages target Htarget)).
    pose proof move_words_encode_checked as Henc'.
    rewrite forallb_forall in Henc'.
    specialize (Henc' target (in_move_targets target H)).
    unfold move_words_ok in Hall; unfold move_words_encode in Henc'.
    destruct (encode_position target) as [e|[hi lo]] eqn:Henc; [discriminate|].
    rewrite !andb_true_iff in Hall.
    destruct Hall as ((((_ & Hhi0) & Hhi1) & Hlo0) & Hlo1).
    apply Z.leb_le in Hhi0, Hlo0; apply Z.ltb_lt in Hhi1, Hlo1.
    apply andb_true_iff in Henc'; destruct Henc' as [Hbits Hnear].
    apply Z.eqb_eq in Hbits.
    destruct (PyFloat.single_of_bits (Z.to_N (hi * 65536 + lo)))
      as [sg|sg| |[|] m e] eqn:Hval; try discriminate.
    apply andb_true_iff in Hnear; destruct Hnear as [He Hnear].
    apply Z.leb_le in He, Hnear.
    exists hi, lo; split; [reflexivity|].
    split; [exact Hbits|].
    split; [exists m, e; split; [exact Hval|split; assumption]|].
    split; [lia|split; [lia|split]].
    + intros w; now apply set_position_move.
    + intros w v0 regs0 st bs va regsa rs Hw Hst Hbs Hlen Hva.
      rewrite (set_position_move target hi lo w H Henc).
      now apply move_run with (v0 := v0) (regs0 := regs0) (va := va) (regsa := regsa).
Qed.

Lemma set_position_witness :
  Gripper.set_position (PyInt 50) (session (words [0x0300; 0x8000]%N)) =
    {| out := Ret tt;
       trace := [read_status;
                 WriteRegisters 0x0801 [0x0500; 0; 16802; 47992];
                 Sleep 50;
                 WriteRegisters 0x0801 [0x8500; 0; 16802; 47992];
                 read_status];
       final := {| status := STATUS_READY; replies := []; link_ok := true |} |}
  /\ forall w, Gripper.set_position (PyInt 1) w
               = (Gripper.handle_errors ;; Gripper.grip (PyInt 4)) w.
Proof.
  destruct (set_position_delegates_or_moves 50 ltac:(lia)) as (_ & _ & H).
  destruct (H ltac:(lia)) as (hi & lo & Henc & _ & _ & _ & _ & _ & Hrun).
  vm_compute in Henc; injection Henc as <- <-.
  split.
  - apply (Hrun (session (words [0x0300; 0x8000]%N)) 0x0300%N [] 3 [] 0x8000%N [] []).
    + reflexivity.
    + reflexivity.
    + constructor.
    + simpl; lia.
    + unfold accepted; simpl; lia.
  - destruct (set_position_delegates_or_moves 1 ltac:(lia)) as (H1 & _).
    destruct (H1 ltac:(lia)) as [H1' _].
    exact H1'.
Defined.

(** C4, as stated, fails: on a gripper that reports Error at two
    successive status reads, [set_position(2)] writes the acknowledge
    pair twice before the grip payloads, while [grip(4)] on the same
    link writes it once: the command words are not those of
    [grip(4)]. *)
Lemma set_position_low_writes_more_than_grip_4 :
  filter is_write
    (trace (Gripper.set_position (PyInt 2)
              (session (words [0x0000; 0x0000; 0x8000; 0xC000]%N))))
  = [WriteRegister 0x0801 0x0100; WriteRegister 0x0801 0x8100;
     WriteRegister 0x0801 0x0100; WriteRegister 0x0801 0x8100;
     WriteRegisters 0x0801 [0x0400; 0; 0; 0];
     WriteRegisters 0x0801 [0x8400; 0; 0; 0]]
  /\ filter is_write
       (trace (Gripper.grip (PyInt 4)
                 (session (words [0x0000; 0x0000; 0x8000; 0xC000]%N))))
     = [WriteRegister 0x0801 0x0100; WriteRegister 0x0801 0x8100;
        WriteRegisters 0x0801 [0x0400; 0; 0; 0];
        WriteRegisters 0x0801 [0x8400; 0; 0; 0]]
  /\ filter is_write
       (trace (Gripper.set_position (PyInt 2)
                 (session (words [0x0000; 0x0000; 0x8000; 0xC000]%N))))
     <> filter is_write
          (trace (Gripper.grip (PyInt 4)
                    (session (words [0x0000; 0x0000; 0x8000; 0xC000]%N)))).
Proof.
  split; [vm_compute; reflexivity|].
  split; [vm_compute; reflexivity|].
  vm_compute; discriminate.
Qed.

(** ** Reading the position *)

Section GetPosition.

Lemma read_run address count w r rs :
  replies w = r :: rs ->
  client.read_input_registers address count w =
    {| out := Ret r; trace := [ReadInputRegisters address count];
       final := with_replies w rs |}.
Proof. intros Hw; unfold client.read_input_registers; rewrite Hw; reflexivity. Qed.

Lemma get_position_run w r0 r1 more rs :
  replies w = (r0 :: r1 :: more) :: rs ->
  Gripper.get_position w =
    {| out := match Gripper.position_perc_of r0 r1 with
              | inr q => Ret q
              | inl e => Raise e
              end;
       trace := [ReadInputRegisters 0x0003 2];
       final := with_replies w rs |}.
Proof.
  intros Hw; unfold Gripper.get_position.
  rewrite (bind_run _ _ _ _ _ _ (read_run 3 2 w _ rs Hw)).
  cbn [registers_index nth_error]; rewrite !bind_ret_l.
  destruct (Gripper.position_perc_of r0 r1) as [e|q]; reflexivity.
Qed.

Lemma roundtrip_checked : forallb roundtrip_ok percentages = true.
Proof. vm_compute; reflexivity. Qed.

End GetPosition.

(** C8: for every integer percentage from 0 to 100, the two words that
    encode it (the binary32 pattern of
    [(100 - percentage) / 100 * POSITION_MAX], split in two) decode, by
    [int(((POSITION_MAX - mm) / POSITION_MAX) * 100)], to a percentage
    within one of it; and that is what [get_position] returns when the
    device reports these two words. *)
Theorem position_round_trip :
  forall percentage : Z,
    0 <= percentage <= 100 ->
    exists hi lo q : Z,
      encode_position percentage = inr (hi, lo)
      /\ Gripper.position_perc_of (Z.to_N hi) (Z.to_N lo) = inr q
      /\ Z.abs (q - percentage) <= 1
      /\ forall w rs,
          Gripper.get_position (with_replies w ([Z.to_N hi; Z.to_N lo] :: rs)) =
            {| out := Ret q; trace := [ReadInputRegisters 0x0003 2];
               final := with_replies w rs |}.
Proof.
  intros percentage H.
  pose proof roundtrip_checked as Hall.
  rewrite forallb_forall in Hall.
  specialize (Hall percentage (in_percentages percentage H)).
  unfold roundtrip_ok in Hall.
  destruct (encode_position percentage) as [e|[hi lo]]; [discriminate|].
  destruct (Gripper.position_perc_of (Z.to_N hi) (Z.to_N lo)) as [e|q] eqn:Hq;
    [discriminate|].
  apply Z.leb_le in Hall.
  exists hi, lo, q; repeat apply conj; try reflexivity; try assumption.
  intros w rs.
  rewrite (get_position_run (with_replies w ([Z.to_N hi; Z.to_N lo] :: rs))
             (Z.to_N hi) (Z.to_N lo) [] rs eq_refl), Hq.
  reflexivity.
Qed.

Lemma position_round_trip_witness :
  exists hi lo q : Z,
    encode_position 29 = inr (hi, lo)
    /\ Gripper.position_perc_of (Z.to_N hi) (Z.to_N lo) = inr q
    /\ Z.abs (q - 29) <= 1.
Proof.
  destruct (position_round_trip 29 ltac:(lia)) as (hi & lo & q & H1 & H2 & H3 & _).
  exists hi, lo, q; repeat split; assumption.
Defined.

(** C10: [get_position] returns
    [int(((POSITION_MAX - mm) / POSITION_MAX) * 100)] for the position
    the two registers hold, without clamping.  The words
    [0x4248, 0x0000] are 50.0 mm, more than [POSITION_MAX], and give
    -22; the words [0xC120, 0x0000] are -10.0 mm and give 124. *)
Theorem get_position_is_not_clamped :
  (forall w r0 r1 more rs,
      Gripper.get_position (with_replies w ((r0 :: r1 :: more) :: rs)) =
        {| out := match Gripper.position_perc_of r0 r1 with
                  | inr q => Ret q
                  | inl e => Raise e
                  end;
           trace := [ReadInputRegisters 0x0003 2];
           final := with_replies w rs |})
  /\ Struct.unpack_f (Struct.bytes_of_u32 0x42480000) = inr (PyFloat.of_int 50)
  /\ SFltb POSITION_MAX (PyFloat.of_int 50) = true
  /\ out (Gripper.get_position (session [[0x4248; 0x0000]%N])) = Ret (-22)
  /\ Struct.unpack_f (Struct.bytes_of_u32 0xC1200000) = inr (PyFloat.of_int (-10))
  /\ out (Gripper.get_position (session [[0xC120; 0x0000]%N])) = Ret 124.
Proof.
  split.
  - intros w r0 r1 more rs.
    exact (get_position_run (with_replies w ((r0 :: r1 :: more) :: rs))
             r0 r1 more rs eq_refl).
  - repeat split; vm_compute; reflexivity.
Qed.

(** ** Type checks *)

(** C9: a [force] that is not an [int], given to [grip], and an
    [ip_adress] that is not a [str], given to the constructor, end in
    the [NameError] of the undefined name [target_position], before any
    traffic on the link: the message about the type is never built.
    ([set_position], where the name is the parameter, does build its
    message.) *)
Theorem type_check_raises_name_error :
  forall (force ip_adress : pyval) (w : world),
    isinstance_int force = false ->
    isinstance_str ip_adress = false ->
    Gripper.grip force w =
      {| out := Raise (NameError "target_position"); trace := []; final := w |}
    /\ Gripper.init ip_adress w =
         {| out := Raise (NameError "target_position"); trace := []; final := w |}
    /\ (forall msg, out (Gripper.grip force w) <> Raise (Exception msg))
    /\ (forall msg, out (Gripper.init ip_adress w) <> Raise (Exception msg))
    /\ Gripper.set_position force w =
         {| out := Raise (Exception
                            ("Target position requires an int, the variable you entered is of type "
                               ++ type_repr force)%string);
            trace := []; final := w |}.
Proof.
  intros force ip_adress w Hforce Hip.
  assert (Hgrip : Gripper.grip force w =
                  {| out := Raise (NameError "target_position"); trace := []; final := w |}).
  { unfold Gripper.grip; rewrite Hforce; reflexivity. }
  assert (Hinit : Gripper.init ip_adress w =
                  {| out := Raise (NameError "target_position"); trace := []; final := w |}).
  { unfold Gripper.init; rewrite Hip; reflexivity. }
  repeat apply conj.
  - exact Hgrip.
  - exact Hinit.
  - intros msg; rewrite Hgrip; discriminate.
  - intros msg; rewrite Hinit; discriminate.
  - unfold Gripper.set_position; rewrite Hforce; reflexivity.
Qed.

Lemma type_check_witness :
  Gripper.grip (PyStr "2") (session [[0x0300%N]]) =
    {| out := Raise (NameError "target_position"); trace := [];
       final := session [[0x0300%N]] |}
  /\ Gripper.init (PyInt 51) (session [[0x0300%N]]) =
       {| out := Raise (NameError "target_position"); trace := [];
          final := session [[0x0300%N]] |}.
Proof.
  destruct (type_check_raises_name_error
              (PyStr "2") (PyInt 51) (session [[0x0300%N]]) eq_refl eq_refl)
    as (H1 & H2 & _).
  split; [exact H1|exact H2].
Defined.

(** ** The status word *)

Section StatusWord.

Lemma all_below_iter (f : N -> bool) (n : N) :
  let s := N.iter n (fun s => (N.succ (fst s), snd s && f (fst s))) (0%N, true) in
  fst s = n /\ (snd s = true -> forall v, (v < n)%N -> f v = true).
Proof.
  induction n as [|n IH] using N.peano_ind; cbv zeta.
  - split; [reflexivity|]; intros _ v Hv; lia.
  - rewrite N.iter_succ; cbv zeta in IH; destruct IH as [Hfst Hsnd].
    cbn [fst snd]; rewrite Hfst; split; [reflexivity|].
    intros H v Hv; apply andb_true_iff in H; destruct H as [Hs Hf].
    destruct (N.eq_dec v n) as [->|Hne]; [assumption|].
    apply Hsnd; [assumption|lia].
Qed.

Lemma all_below_spec (f : N -> bool) (n : N) :
  all_below n f = true -> forall v, (v < n)%N -> f v = true.
Proof. intros H; apply (all_below_iter f n); exact H. Qed.

Lemma decodes_as_bits_checked : all_below 65536 decodes_as_bits = true.
Proof. vm_compute; reflexivity. Qed.

End StatusWord.

(** C2, as the code has it: the status word [0b0000000001100000]
    ([0x0060]) decodes to operating status Error, not Ready: characters
    5 to 7 of its sixteen binary digits are [000], the two set bits
    being characters 9 and 10.  Its process-command flag (character 0)
    and its success flag (character 1) are 0.  The operating status is
    bits 10..8 of the word, so Ready is decoded from a word such as
    [0x0300]. *)
Theorem status_word_0x0060_decodes_to_error :
  Gripper.word_bits 0x0060 = "0000000001100000"%string
  /\ PyString.slice 5 8 (Gripper.word_bits 0x0060) = "000"%string
  /\ Gripper.status_field 0x0060 = inr STATUS_ERROR
  /\ Gripper.flag 0 0x0060 = inr 0
  /\ Gripper.flag 1 0x0060 = inr 0
  /\ Gripper.get_status (session [[0x0060%N]]) =
       {| out := Ret STATUS_ERROR; trace := [ReadInputRegisters 0x0001 1];
          final := session [] |}
  /\ Gripper.status_field 0x0300 = inr STATUS_READY
  /\ (forall v : N,
        (v < 65536)%N ->
        Gripper.status_field v = inr (Z.of_N ((v / 256) mod 8))
        /\ Gripper.flag 0 v = inr (Z.of_N (v / 32768))
        /\ Gripper.flag 1 v = inr (Z.of_N ((v / 16384) mod 2))).
Proof.
  repeat apply conj; try (vm_compute; reflexivity).
  intros v Hv.
  pose proof (all_below_spec decodes_as_bits 65536 decodes_as_bits_checked v Hv) as H.
  unfold decodes_as_bits in H.
  destruct (Gripper.status_field v) as [e|st]; [discriminate|].
  destruct (Gripper.flag 0 v) as [e|pc]; [discriminate|].
  destruct (Gripper.flag 1 v) as [e|ok]; [discriminate|].
  rewrite !andb_true_iff in H; destruct H as [[Hst Hpc] Hok].
  apply Z.eqb_eq in Hst, Hpc, Hok; subst; repeat split.
Qed.

Lemma status_word_witness :
  Gripper.status_field 0x0060 = inr (Z.of_N ((0x0060 / 256) mod 8))
  /\ Gripper.flag 1 0x0060 = inr (Z.of_N ((0x0060 / 16384) mod 2)).
Proof.
  destruct status_word_0x0060_decodes_to_error as (_ & _ & _ & _ & _ & _ & _ & H).
  destruct (H 0x0060%N ltac:(reflexivity)) as (H1 & _ & H2).
  split; [exact H1|exact H2].
Defined.

(** C2, as stated, fails: the word [0x0060] decodes to Error (0), not
    to Ready (3). *)
Lemma status_word_0x0060_is_not_ready :
  Gripper.status_field 0x0060 = inr STATUS_ERROR
  /\ Gripper.status_field 0x0060 <> inr STATUS_READY.
Proof. split; [vm_compute; reflexivity|vm_compute; discriminate]. Qed.

(** * Further properties of the methods *)

(** ** Commands that wait for success: [release], and [grip] after a
       time-out *)

Section CommandThenWait.

Lemma wait_process_command_timed_out w bs rs :
  replies w = words bs ++ rs ->
  Forall busy bs ->
  List.length bs = 1000%nat ->
  Gripper.wait_process_command w =
    {| out := Ret tt; trace := repeat read_status 1000 ++ soft_reset;
       final := with_replies w rs |}.
Proof.
  intros Hw Hbs Hlen; unfold Gripper.wait_process_command.
  rewrite (bind_run _ _ _ _ _ _ (for_range_busy bs 1000 0 w rs Hw Hbs Hlen)).
  generalize (repeat read_status 1000); intros reads; reflexivity.
Qed.

(** The tail shared by [grip] and [release], on a link that accepts. *)
Lemma command_then_wait_accepted arm execute w bs va regsa waiting vs regss rs :
  replies w = words bs ++ (va :: regsa) :: words waiting ++ (vs :: regss) :: rs ->
  Forall busy bs -> (List.length bs < 1000)%nat -> accepted va ->
  Forall (fun v => ~ succeeded v) waiting -> succeeded vs ->
  (client.write_registers 0x0801 arm ;;
   time_sleep 50 ;;
   client.write_registers 0x0801 execute ;;
   Gripper.wait_process_command ;;
   time_sleep 1000 ;;
   Gripper.wait_success) w =
    {| out := Ret tt;
       trace := [WriteRegisters 0x0801 arm; Sleep 50; WriteRegisters 0x0801 execute]
                  ++ repeat read_status (S (List.length bs))
                  ++ Sleep 1000 :: success_polling waiting;
       final := with_replies w rs |}.
Proof.
  intros Hw Hbs Hlen Hva Hwait Hvs.
  unfold client.write_registers.
  rewrite bind_emit; cbv beta.
  rewrite (bind_emit (Sleep 50)); cbv beta.
  rewrite bind_emit; cbv beta.
  rewrite (bind_run _ _ _ _ _ _
             (wait_process_command_accepted w bs va regsa
                (words waiting ++ (vs :: regss) :: rs) Hw Hbs Hlen Hva)).
  cbv beta.
  rewrite (bind_emit (Sleep 1000)); cbv beta.
  rewrite (wait_success_run
             (with_replies w (words waiting ++ (vs :: regss) :: rs))
             waiting vs regss rs eq_refl Hwait Hvs).
  reflexivity.
Qed.

(** The same tail on a link that does not accept within 1000 reads. *)
Lemma command_then_wait_timed_out arm execute w bs waiting vs regss rs :
  replies w = words bs ++ words waiting ++ (vs :: regss) :: rs ->
  Forall busy bs -> List.length bs = 1000%nat ->
  Forall (fun v => ~ succeeded v) waiting -> succeeded vs ->
  (client.write_registers 0x0801 arm ;;
   time_sleep 50 ;;
   client.write_registers 0x0801 execute ;;
   Gripper.wait_process_command ;;
   time_sleep 1000 ;;
   Gripper.wait_success) w =
    {| out := Ret tt;
       trace := [WriteRegisters 0x0801 arm; Sleep 50; WriteRegisters 0x0801 execute]
                  ++ repeat read_status 1000 ++ soft_reset
                  ++ Sleep 1000 :: success_polling waiting;
       final := with_replies w rs |}.
Proof.
  intros Hw Hbs Hlen Hwait Hvs.
  unfold client.write_registers.
  rewrite bind_emit; cbv beta.
  rewrite (bind_emit (Sleep 50)); cbv beta.
  rewrite bind_emit; cbv beta.
  rewrite (bind_run _ _ _ _ _ _
             (wait_process_command_timed_out w bs
                (words waiting ++ (vs :: regss) :: rs) Hw Hbs Hlen)).
  cbv beta.
  rewrite (bind_emit (Sleep 1000)); cbv beta.
  rewrite (wait_success_run
             (with_replies w (words waiting ++ (vs :: regss) :: rs))
             waiting vs regss rs eq_refl Hwait Hvs).
  cbn [out trace final].
  generalize (repeat read_status 1000); intros reads.
  rewrite <- app_assoc; reflexivity.
Qed.

Lemma release_returns_on_success : returns_on_success Gripper.release.
Proof. unfold Gripper.release; returns_on_success. Qed.

Lemma release_run w v0 regs0 st bs va regsa waiting vs regss rs :
  replies w =
    (v0 :: regs0) :: words bs ++ (va :: regsa) :: words waiting ++ (vs :: regss) :: rs ->
  Gripper.status_field v0 = inr st ->
  Forall busy bs -> (List.length bs < 1000)%nat -> accepted va ->
  Forall (fun v => ~ succeeded v) waiting -> succeeded vs ->
  Gripper.release w =
    {| out := Ret tt;
       trace := read_status :: recovery_trace st
                  ++ [WriteRegisters 0x0801 [0x0300; 0; 0; 0];
                      Sleep 50;
                      WriteRegisters 0x0801 [0x8300; 0; 0; 0]]
                  ++ repeat read_status (S (List.length bs))
                  ++ Sleep 1000 :: success_polling waiting;
       final := with_status w st rs |}.
Proof.
  intros Hw Hst Hbs Hlen Hva Hwait Hvs.
  unfold Gripper.release.
  rewrite (bind_run _ _ _ _ _ _ (handle_errors_run w v0 regs0 _ st Hw Hst)).
  cbv beta.
  rewrite (command_then_wait_accepted [0x0300; 0; 0; 0] [0x8300; 0; 0; 0]
             (with_status w st (words bs ++ (va :: regsa)
                                  :: words waiting ++ (vs :: regss) :: rs))
             bs va regsa waiting vs regss rs eq_refl Hbs Hlen Hva Hwait Hvs).
  reflexivity.
Qed.

End CommandThenWait.

(** X1: [release] runs the error-recovery check, writes
    [[0x0300, 0, 0, 0]] and then [[0x8300, 0, 0, 0]] to [0x0801], polls
    for acceptance, waits a second and polls the success flag, pausing
    50 ms after every word that does not show it; and whenever it
    returns, it has just read a status word whose success flag is 1. *)
Theorem release_writes_payloads_then_waits_for_success :
  (forall w v0 regs0 st bs va regsa waiting vs regss rs,
      replies w =
        (v0 :: regs0) :: words bs ++ (va :: regsa)
                      :: words waiting ++ (vs :: regss) :: rs ->
      Gripper.status_field v0 = inr st ->
      Forall busy bs -> (List.length bs < 1000)%nat -> accepted va ->
      Forall (fun v => ~ succeeded v) waiting -> succeeded vs ->
      Gripper.release w =
        {| out := Ret tt;
           trace := read_status :: recovery_trace st
                      ++ [WriteRegisters 0x0801 [0x0300; 0; 0; 0];
                          Sleep 50;
                          WriteRegisters 0x0801 [0x8300; 0; 0; 0]]
                      ++ repeat read_status (S (List.length bs))
                      ++ Sleep 1000 :: success_polling waiting;
           final := with_status w st rs |})
  /\ returns_on_success Gripper.release.
Proof.
  split; [|exact release_returns_on_success].
  intros w v0 regs0 st bs va regsa waiting vs regss rs Hw Hst Hbs Hlen Hva Hwait Hvs.
  now apply release_run with (v0 := v0) (regs0 := regs0) (va := va) (regsa := regsa)
                             (vs := vs) (regss := regss).
Qed.

Lemma release_witness :
  Gripper.release (session (words [0x0000; 0x8000; 0xC000]%N)) =
    {| out := Ret tt;
       trace := [read_status;
                 WriteRegister 0x0801 0x0100; Sleep 100;
                 WriteRegister 0x0801 0x8100; Sleep 100;
                 WriteRegisters 0x0801 [0x0300; 0; 0; 0];
                 Sleep 50;
                 WriteRegisters 0x0801 [0x8300; 0; 0; 0];
                 read_status; Sleep 1000; read_status];
       final := session [] |}.
Proof.
  destruct release_writes_payloads_then_waits_for_success as [H _].
  apply (H (session (words [0x0000; 0x8000; 0xC000]%N))
           0x0000%N [] 0 [] 0x8000%N [] [] 0xC000%N [] []).
  - reflexivity.
  - reflexivity.
  - constructor.
  - simpl; lia.
  - unfold accepted; simpl; lia.
  - constructor.
  - reflexivity.
Defined.

(** X2: When the device does not accept a grip or release command within
    the 1000 reads, the time-out is not reported: after the soft reset
    and the acknowledge pair, [grip] and [release] wait a second and
    go on to poll the success flag as if the command had been
    accepted. *)
Theorem acceptance_timeout_is_not_reported :
  forall (force : Z) w v0 regs0 st bs waiting vs regss rs,
    1 <= force <= 4 ->
    replies w = (v0 :: regs0) :: words bs ++ words waiting ++ (vs :: regss) :: rs ->
    Gripper.status_field v0 = inr st ->
    Forall busy bs -> List.length bs = 1000%nat ->
    Forall (fun v => ~ succeeded v) waiting -> succeeded vs ->
    Gripper.grip (PyInt force) w =
      {| out := Ret tt;
         trace := read_status :: recovery_trace st
                    ++ [WriteRegisters 0x0801 [0x0400; (4 - force) * 0x0100; 0; 0];
                        Sleep 50;
                        WriteRegisters 0x0801 [0x8400; (4 - force) * 0x0100; 0; 0]]
                    ++ repeat read_status 1000
                    ++ [WriteRegister 0x1120 1; Sleep 100;
                        WriteRegister 0x1120 0; Sleep 100;
                        WriteRegister 0x0801 0x0100; Sleep 100;
                        WriteRegister 0x0801 0x8100]
                    ++ Sleep 1000 :: success_polling waiting;
         final := with_status w st rs |}
    /\ Gripper.release w =
         {| out := Ret tt;
            trace := read_status :: recovery_trace st
                       ++ [WriteRegisters 0x0801 [0x0300; 0; 0; 0];
                           Sleep 50;
                           WriteRegisters 0x0801 [0x8300; 0; 0; 0]]
                       ++ repeat read_status 1000
                       ++ [WriteRegister 0x1120 1; Sleep 100;
                           WriteRegister 0x1120 0; Sleep 100;
                           WriteRegister 0x0801 0x0100; Sleep 100;
                           WriteRegister 0x0801 0x8100]
                       ++ Sleep 1000 :: success_polling waiting;
            final := with_status w st rs |}.
Proof.
  intros force w v0 regs0 st bs waiting vs regss rs Hforce Hw Hst Hbs Hlen Hwait Hvs.
  split.
  - unfold Gripper.grip; cbn [isinstance_int negb int_value].
    rewrite (bind_run _ _ _ _ _ _ (handle_errors_run w v0 regs0 _ st Hw Hst)).
    cbv beta zeta; rewrite (force_in_range force Hforce).
    rewrite (command_then_wait_timed_out
               [0x0400; (4 - force) * 0x0100; 0; 0] [0x8400; (4 - force) * 0x0100; 0; 0]
               (with_status w st (words bs ++ words waiting ++ (vs :: regss) :: rs))
               bs waiting vs regss rs eq_refl Hbs Hlen Hwait Hvs).
    reflexivity.
  - unfold Gripper.release.
    rewrite (bind_run _ _ _ _ _ _ (handle_errors_run w v0 regs0 _ st Hw Hst)).
    cbv beta.
    rewrite (command_then_wait_timed_out [0x0300; 0; 0; 0] [0x8300; 0; 0; 0]
               (with_status w st (words bs ++ words waiting ++ (vs :: regss) :: rs))
               bs waiting vs regss rs eq_refl Hbs Hlen Hwait Hvs).
    reflexivity.
Qed.

Lemma acceptance_timeout_witness :
  out (Gripper.grip (PyInt 4)
         (session (words (0x0300 :: repeat 0 1000 ++ [0x4000])%N))) = Ret tt
  /\ out (Gripper.release
            (session (words (0x0300 :: repeat 0 1000 ++ [0x4000])%N))) = Ret tt.
Proof.
  destruct (acceptance_timeout_is_not_reported
              4 (session (words (0x0300 :: repeat 0 1000 ++ [0x4000])%N))
              0x0300%N [] 3 (repeat 0%N 1000) [] 0x4000%N [] [])
    as [Hgrip Hrelease].
  - lia.
  - vm_compute; reflexivity.
  - reflexivity.
  - apply Forall_forall; intros x Hx; apply repeat_spec in Hx; subst x.
    unfold busy; simpl; lia.
  - reflexivity.
  - constructor.
  - reflexivity.
  - rewrite Hgrip, Hrelease; split; reflexivity.
Defined.

(** ** Commands that do not wait: [stop], [reference], [calibrate] and
       [measure_stroke] *)

Section ArmExecute.

(** The check followed by the arm and execute writes of one command. *)
Lemma arm_execute_run arm execute w v regs rs st :
  replies w = (v :: regs) :: rs ->
  Gripper.status_field v = inr st ->
  (Gripper.handle_errors ;;
   client.write_register 0x0801 arm ;;
   time_sleep 100 ;;
   client.write_register 0x0801 execute) w =
    {| out := Ret tt;
       trace := read_status :: recovery_trace st
                  ++ [WriteRegister 0x0801 arm; Sleep 100; WriteRegister 0x0801 execute];
       final := with_status w st rs |}.
Proof.
  intros Hw Hst.
  rewrite (bind_run _ _ _ _ _ _ (handle_errors_run w v regs rs st Hw Hst)).
  reflexivity.
Qed.

End ArmExecute.

(** X3: [stop], [reference], [calibrate] and [measure_stroke] run the
    error-recovery check and then write their command word to [0x0801]
    twice, 100 ms apart, the second time with the execute bit [0x8000]
    set.  They return at once: the status read of the check is their
    only read, so neither acceptance nor success is awaited. *)
Theorem simple_commands_arm_then_execute :
  forall w v regs rs st,
    replies w = (v :: regs) :: rs ->
    Gripper.status_field v = inr st ->
    let run (command : Z) : run unit :=
      {| out := Ret tt;
         trace := read_status :: recovery_trace st
                    ++ [WriteRegister 0x0801 command; Sleep 100;
                        WriteRegister 0x0801 (Z.lor command 0x8000)];
         final := with_status w st rs |} in
    Gripper.reference w = run 0x0200
    /\ Gripper.measure_stroke w = run 0x0700
    /\ Gripper.stop w = run 0x0800
    /\ Gripper.calibrate w = run 0x0900.
Proof.
  intros w v regs rs st Hw Hst run; subst run; repeat apply conj.
  - exact (arm_execute_run 0x0200 0x8200 w v regs rs st Hw Hst).
  - exact (arm_execute_run 0x0700 0x8700 w v regs rs st Hw Hst).
  - exact (arm_execute_run 0x0800 0x8800 w v regs rs st Hw Hst).
  - exact (arm_execute_run 0x0900 0x8900 w v regs rs st Hw Hst).
Qed.

Lemma simple_commands_witness :
  Gripper.stop (session [[0x0100%N]]) =
    {| out := Ret tt;
       trace := [read_status;
                 WriteRegister 0x1120 1; Sleep 100; WriteRegister 0x1120 0; Sleep 100;
                 WriteRegister 0x0801 0x0100; Sleep 100; WriteRegister 0x0801 0x8100;
                 Sleep 100;
                 WriteRegister 0x0801 0x0800; Sleep 100; WriteRegister 0x0801 0x8800];
       final := {| status := STATUS_OOS; replies := []; link_ok := true |} |}.
Proof.
  destruct (simple_commands_arm_then_execute
              (session [[0x0100%N]]) 0x0100%N [] [] STATUS_OOS eq_refl eq_refl)
    as (_ & _ & H & _).
  exact H.
Defined.

(** ** [fast_stop] *)

(** X4: [fast_stop] reads the status; only for status Error does it write
    the acknowledge pair, and then, with no pause, it writes the word
    [0x0000] to [0x0801] once: there is no execute write, and for
    OutOfSpecification there is no soft reset, unlike in the other
    operations. *)
Theorem fast_stop_acknowledges_only_errors :
  forall w v regs rs st,
    replies w = (v :: regs) :: rs ->
    Gripper.status_field v = inr st ->
    Gripper.fast_stop w =
      {| out := Ret tt;
         trace := read_status
                    :: (if st =? STATUS_ERROR
                        then [WriteRegister 0x0801 0x0100; Sleep 100;
                              WriteRegister 0x0801 0x8100]
                        else [])
                    ++ [WriteRegister 0x0801 0x0000];
         final := with_status w st rs |}.
Proof.
  intros w v regs rs st Hw Hst; unfold Gripper.fast_stop.
  rewrite (bind_run _ _ _ _ _ _ (get_status_run w v regs rs st Hw Hst)).
  cbv beta; destruct (st =? STATUS_ERROR); reflexivity.
Qed.

Lemma fast_stop_witness :
  Gripper.fast_stop (session [[0x0100%N]]) =
    {| out := Ret tt;
       trace := [read_status; WriteRegister 0x0801 0x0000];
       final := {| status := STATUS_OOS; replies := []; link_ok := true |} |}.
Proof.
  exact (fast_stop_acknowledges_only_errors
           (session [[0x0100%N]]) 0x0100%N [] [] STATUS_OOS eq_refl eq_refl).
Defined.

(** ** The constructor *)

Section Constructor.

Lemma connect_run w :
  client.connect w = {| out := Ret (link_ok w); trace := [Connect]; final := w |}.
Proof. reflexivity. Qed.

Lemma acknowledge_run w :
  Gripper.acknowledge w = {| out := Ret tt; trace := acknowledge_pair; final := w |}.
Proof. reflexivity. Qed.

Lemma bind_run_to {A B} (m : M A) (k : A -> M B) w a t w' o t' w'' :
  m w = {| out := Ret a; trace := t; final := w' |} ->
  k a w' = {| out := o; trace := t'; final := w'' |} ->
  bind m k w = {| out := o; trace := t ++ t'; final := w'' |}.
Proof. intros Hm Hk; unfold bind; rewrite Hm; cbn; rewrite Hk; reflexivity. Qed.

Lemma bind_set_status {B} st (k : unit -> M B) w :
  bind (set_status st) k w = k tt (with_status w st (replies w)).
Proof. unfold bind, set_status; cbn; destruct (k tt _); reflexivity. Qed.

End Constructor.

(** X5: When [connect()] fails, the constructor raises its connection error
    and has touched no register: nothing was read or written. *)
Theorem constructor_fails_without_register_traffic :
  forall (ip : string) (w : world),
    link_ok w = false ->
    Gripper.init (PyStr ip) w =
      {| out := Raise (Exception "Connection to the gripper failed: incorrect IP-adress");
         trace := [Connect]; final := w |}.
Proof.
  intros ip w Hlink; unfold Gripper.init; cbn [isinstance_str negb].
  rewrite (bind_run _ _ _ _ _ _ (connect_run w)), Hlink.
  reflexivity.
Qed.

Lemma constructor_fails_witness :
  Gripper.init (PyStr "172.31.1.51")
    {| status := 0; replies := [[0x0300%N]]; link_ok := false |} =
    {| out := Raise (Exception "Connection to the gripper failed: incorrect IP-adress");
       trace := [Connect];
       final := {| status := 0; replies := [[0x0300%N]]; link_ok := false |} |}.
Proof.
  exact (constructor_fails_without_register_traffic
           "172.31.1.51" {| status := 0; replies := [[0x0300%N]]; link_ok := false |}
           eq_refl).
Defined.

(** X6: On a link that connects, the constructor reads the status, sets the
    link time-out to 0, writes the acknowledge pair whatever that
    status was, and then runs [reference], whose own check reads the
    status again: two status words are used, and only the second one
    decides about a recovery. *)
Theorem constructor_acknowledges_then_references :
  forall (ip : string) w v0 regs0 st0 v1 regs1 st1 rs,
    link_ok w = true ->
    replies w = (v0 :: regs0) :: (v1 :: regs1) :: rs ->
    Gripper.status_field v0 = inr st0 ->
    Gripper.status_field v1 = inr st1 ->
    Gripper.init (PyStr ip) w =
      {| out := Ret tt;
         trace := [Connect; read_status;
                   WriteRegister 0x1120 0; Sleep 100;
                   WriteRegister 0x0801 0x0100; Sleep 100; WriteRegister 0x0801 0x8100;
                   Sleep 100;
                   read_status]
                    ++ recovery_trace st1
                    ++ [WriteRegister 0x0801 0x0200; Sleep 100;
                        WriteRegister 0x0801 0x8200];
         final := with_status w st1 rs |}.
Proof.
  intros ip w v0 regs0 st0 v1 regs1 st1 rs Hlink Hw Hst0 Hst1.
  unfold Gripper.init; cbn [isinstance_str negb].
  eapply (bind_run_to _ _ _ _ [Connect]); [apply connect_run|].
  rewrite Hlink; cbn [negb].
  eapply (bind_run_to _ _ _ _ [read_status]);
    [exact (get_status_run w v0 regs0 ((v1 :: regs1) :: rs) st0 Hw Hst0)|].
  rewrite bind_set_status.
  eapply (bind_run_to _ _ _ _ [WriteRegister 0x1120 0]); [reflexivity|].
  eapply (bind_run_to _ _ _ _ [Sleep 100]); [reflexivity|].
  eapply (bind_run_to _ _ _ _ acknowledge_pair); [apply acknowledge_run|].
  eapply (bind_run_to _ _ _ _ [Sleep 100]); [reflexivity|].
  exact (arm_execute_run 0x0200 0x8200
           (with_status (with_status w st0 ((v1 :: regs1) :: rs)) st0
              (replies (with_status w st0 ((v1 :: regs1) :: rs))))
           v1 regs1 rs st1 eq_refl Hst1).
Qed.

Lemma constructor_witness :
  Gripper.init (PyStr "172.31.1.51") (session (words [0x0000; 0x0300]%N)) =
    {| out := Ret tt;
       trace := [Connect; read_status;
                 WriteRegister 0x1120 0; Sleep 100;
                 WriteRegister 0x0801 0x0100; Sleep 100; WriteRegister 0x0801 0x8100;
                 Sleep 100;
                 read_status;
                 WriteRegister 0x0801 0x0200; Sleep 100; WriteRegister 0x0801 0x8200];
       final := {| status := STATUS_READY; replies := []; link_ok := true |} |}.
Proof.
  exact (constructor_acknowledges_then_references
           "172.31.1.51" (session (words [0x0000; 0x0300]%N))
           0x0000%N [] 0 0x0300%N [] 3 [] eq_refl eq_refl eq_refl eq_refl).
Defined.

(** ** How much [wait_process_command] reads and when it writes *)

Section PollingBounds.

Lemma poll_index_error w rs i :
  replies w = [] :: rs ->
  Gripper.poll_process_command i w =
    {| out := Raise IndexError; trace := [read_status]; final := with_replies w rs |}.
Proof.
  intros Hw.
  unfold Gripper.poll_process_command, bind, client.read_input_registers.
  rewrite Hw; reflexivity.
Qed.

Lemma bind_trace {A B} (m : M A) (k : A -> M B) w :
  trace (bind m k w) =
    match out (m w) with
    | Ret a => trace (m w) ++ trace (k a (final (m w)))
    | _ => trace (m w)
    end.
Proof. unfold bind; destruct (out (m w)); reflexivity. Qed.

Lemma bind_out {A B} (m : M A) (k : A -> M B) w :
  out (bind m k w) =
    match out (m w) with
    | Ret a => out (k a (final (m w)))
    | Raise e => Raise e
    | Pending => Pending
    | OutOfFuel => OutOfFuel
    end.
Proof. unfold bind; destruct (out (m w)); reflexivity. Qed.

(** One round of the loop is one read, whatever comes back. *)
Lemma poll_one_read i w :
  trace (Gripper.poll_process_command i w) = [read_status].
Proof.
  destruct (replies w) as [|[|v regs] rs] eqn:Hw.
  - now rewrite (poll_pending w i Hw).
  - now rewrite (poll_index_error w rs i Hw).
  - destruct (Z.le_gt_cases (Z.of_N v) 0x7FFF) as [Hv|Hv].
    + now rewrite (poll_busy w v regs rs i Hw Hv).
    + rewrite (poll_accepted w v regs rs i Hw); [reflexivity|].
      unfold accepted; lia.
Qed.

Lemma for_range_reads n : forall i w,
  exists k,
    (k <= n)%nat
    /\ (0 < n -> 0 < k)%nat
    /\ trace (for_range n i Gripper.poll_process_command w) = repeat read_status k
    /\ (out (for_range n i Gripper.poll_process_command w) = Ret false -> k = n).
Proof.
  induction n as [|n IH]; intros i w; cbn [for_range].
  - exists 0%nat; split; [lia|split; [lia|split; [reflexivity|reflexivity]]].
  - rewrite bind_trace, bind_out, poll_one_read.
    destruct (out (Gripper.poll_process_command i w)) as [[|]|e| |].
    + exists 1%nat; split; [lia|split; [lia|split; [reflexivity|discriminate]]].
    + destruct (IH (i + 1) (final (Gripper.poll_process_command i w)))
        as (k & Hk & _ & Ht & Hout).
      exists (S k); split; [lia|split; [lia|split]].
      * now rewrite Ht.
      * intros H; now rewrite (Hout H).
    + exists 1%nat; split; [lia|split; [lia|split; [reflexivity|discriminate]]].
    + exists 1%nat; split; [lia|split; [lia|split; [reflexivity|discriminate]]].
    + exists 1%nat; split; [lia|split; [lia|split; [reflexivity|discriminate]]].
Qed.

End PollingBounds.

(** X7: Whatever the device answers, [wait_process_command] makes between 1
    and 1000 status reads and nothing else, except that after 1000
    reads it may go on to the soft reset and the acknowledge pair: it
    never writes before its 1000th read. *)
Theorem wait_process_command_reads_at_most_1000 :
  forall w : world,
    exists k : nat,
      (1 <= k <= 1000)%nat
      /\ (trace (Gripper.wait_process_command w) = repeat read_status k
          \/ (k = 1000%nat
              /\ trace (Gripper.wait_process_command w) =
                   repeat read_status 1000
                     ++ [WriteRegister 0x1120 1; Sleep 100;
                         WriteRegister 0x1120 0; Sleep 100;
                         WriteRegister 0x0801 0x0100; Sleep 100;
                         WriteRegister 0x0801 0x8100])).
Proof.
  intros w; unfold Gripper.wait_process_command.
  destruct (for_range_reads 1000 0 w) as (k & Hk & Hpos & Ht & Hout).
  exists k; split; [lia|].
  rewrite bind_trace, Ht.
  destruct (out (for_range 1000 0 Gripper.poll_process_command w)) as [[|]|e| |];
    try (left; reflexivity).
  - left; cbn [ret trace]; apply app_nil_r.
  - right; rewrite (Hout eq_refl); split; reflexivity.
Qed.

(** ** The acceptance test and the process-command flag *)

Section AcceptanceFlag.

Lemma decodes_as_bits_spec v :
  (v < 65536)%N ->
  Gripper.status_field v = inr (Z.of_N ((v / 256) mod 8))
  /\ Gripper.flag 0 v = inr (Z.of_N (v / 32768))
  /\ Gripper.flag 1 v = inr (Z.of_N ((v / 16384) mod 2)).
Proof.
  intros Hv.
  pose proof (all_below_spec decodes_as_bits 65536 decodes_as_bits_checked v Hv) as H.
  unfold decodes_as_bits in H.
  destruct (Gripper.status_field v) as [e|st]; [discriminate|].
  destruct (Gripper.flag 0 v) as [e|pc]; [discriminate|].
  destruct (Gripper.flag 1 v) as [e|ok]; [discriminate|].
  rewrite !andb_true_iff in H; destruct H as [[Hst Hpc] Hok].
  apply Z.eqb_eq in Hst, Hpc, Hok; subst; repeat split.
Qed.

Lemma top_bit v :
  (v < 65536)%N ->
  (v / 32768 = if v <? 32768 then 0 else 1)%N.
Proof.
  intros Hv; destruct (N.ltb_spec v 32768) as [H|H].
  - now apply N.div_small.
  - symmetry; apply (N.div_unique v 32768 1 (v - 32768)); lia.
Qed.

End AcceptanceFlag.

(** X8: [wait_process_command] computes the process-command flag, character
    0 of the status word, but tests [value > 2 ** 15 - 1] instead.  For
    an unsigned 16-bit word the two agree: the test holds exactly when
    the flag is 1. *)
Theorem acceptance_test_is_the_process_command_flag :
  forall v : N,
    (v < 65536)%N ->
    (accepted v <-> Gripper.flag 0 v = inr 1)
    /\ (busy v <-> Gripper.flag 0 v = inr 0).
Proof.
  intros v Hv.
  destruct (decodes_as_bits_spec v Hv) as (_ & Hflag & _).
  rewrite Hflag, (top_bit v Hv); unfold accepted, busy.
  destruct (N.ltb_spec v 32768) as [H|H]; cbn [Z.of_N];
    (split; split; intros H'; try discriminate; try reflexivity; try lia).
Qed.

Lemma acceptance_test_witness :
  (accepted 0x8000 <-> Gripper.flag 0 0x8000 = inr 1)
  /\ (busy 0x8000 <-> Gripper.flag 0 0x8000 = inr 0).
Proof.
  exact (acceptance_test_is_the_process_command_flag 0x8000 ltac:(reflexivity)).
Defined.

(** ** A status read that is not answered *)

Section UnansweredRead.

Lemma handle_errors_pending w :
  replies w = [] ->
  Gripper.handle_errors w = {| out := Pending; trace := [read_status]; final := w |}.
Proof.
  intros Hw; unfold Gripper.handle_errors.
  exact (bind_pending _ _ _ _ _ (get_status_pending w Hw)).
Qed.

Lemma handle_errors_index_error w rs :
  replies w = [] :: rs ->
  Gripper.handle_errors w =
    {| out := Raise IndexError; trace := [read_status]; final := with_replies w rs |}.
Proof.
  intros Hw; unfold Gripper.handle_errors.
  exact (bind_raise _ _ _ _ _ _ (get_status_index_error w rs Hw)).
Qed.

End UnansweredRead.

(** X9: The status read of the error-recovery check is the first thing
    every command operation does on the link.  If it is not answered,
    the operation is still waiting and has written nothing; if the
    answer holds no register, the operation ends in the [IndexError]
    of [registers[0]], again with nothing written. *)
Theorem nothing_is_written_before_the_status_is_read :
  forall (op : operation) (w : world),
    (replies w = [] ->
     perform op w = {| out := Pending; trace := [read_status]; final := w |})
    /\ (forall rs,
          replies w = [] :: rs ->
          perform op w =
            {| out := Raise IndexError; trace := [read_status];
               final := with_replies w rs |}).
Proof.
  intros op w; destruct (perform_after_check op) as (k & Hk & _); rewrite Hk.
  split.
  - intros Hw; exact (bind_pending _ _ _ _ _ (handle_errors_pending w Hw)).
  - intros rs Hw; exact (bind_raise _ _ _ _ _ _ (handle_errors_index_error w rs Hw)).
Qed.

Lemma unanswered_read_witness :
  Gripper.release (session []) =
    {| out := Pending; trace := [read_status]; final := session [] |}
  /\ Gripper.grip (PyInt 4) (session [[]]) =
       {| out := Raise IndexError; trace := [read_status]; final := session [] |}.
Proof.
  split.
  - destruct (nothing_is_written_before_the_status_is_read OpRelease (session []))
      as [H _].
    exact (H eq_refl).
  - destruct (nothing_is_written_before_the_status_is_read (OpGrip 4) (session [[]]))
      as [_ H].
    exact (H [] eq_refl).
Defined.

(** ** When [set_position] waits for success *)

Section SetPositionBlocking.

Lemma set_position_delegating_returns_on_success target :
  target < 3 \/ 97 < target ->
  returns_on_success (Gripper.set_position (PyInt target)).
Proof.
  intros H; unfold Gripper.set_position; cbn [isinstance_int negb int_value].
  apply returns_on_success_bind; [apply consumed_handle_errors|intros _; cbv zeta].
  destruct (negb _); [apply returns_on_success_raise|].
  destruct (Z.ltb_spec target 3); [apply grip_returns_on_success|].
  destruct (Z.gtb_spec target 97); [apply release_returns_on_success|lia].
Qed.

Lemma set_position_move_returns_at_acceptance target :
  3 <= target <= 97 ->
  out (Gripper.set_position (PyInt target) (session (words [0x0300; 0x8000]%N))) = Ret tt
  /\ replies (final (Gripper.set_position (PyInt target)
                       (session (words [0x0300; 0x8000]%N)))) = [].
Proof.
  intros H.
  pose proof move_words_checked as Hall.
  rewrite forallb_forall in Hall.
  specialize (Hall target (in_percentages target ltac:(lia))).
  unfold move_words_ok in Hall.
  destruct (encode_position target) as [e|[hi lo]] eqn:Henc; [discriminate|].
  rewrite (set_position_move target hi lo _ H Henc).
  rewrite (move_run hi lo (session (words [0x0300; 0x8000]%N))
             0x0300%N [] 3 [] 0x8000%N [] [] eq_refl eq_refl (Forall_nil _)).
  - split; reflexivity.
  - simpl; lia.
  - unfold accepted; simpl; lia.
Qed.

End SetPositionBlocking.

(** X10: [set_position] waits for the success flag exactly when it
    delegates: for a target below 3 or above 97 it returns only after
    reading a status word whose success flag is 1, while for every
    target from 3 to 97 there is a run in which it returns on a status
    word whose success flag is 0. *)
Theorem set_position_waits_for_success_only_when_delegating :
  forall target : Z,
    (target < 3 \/ 97 < target ->
     returns_on_success (Gripper.set_position (PyInt target)))
    /\ (3 <= target <= 97 ->
        ~ returns_on_success (Gripper.set_position (PyInt target))).
Proof.
  intros target; split.
  - apply set_position_delegating_returns_on_success.
  - intros H Hros.
    destruct (set_position_move_returns_at_acceptance target H) as [Hout Hfinal].
    destruct (Hros _ Hout) as (c & vs & regs & tr & Hc & Hvs & _).
    rewrite Hfinal in Hc.
    change (replies (session (words [768%N; 32768%N])))
      with ([[768%N]] ++ [[32768%N]]) in Hc.
    apply app_inj_tail in Hc; destruct Hc as [_ Hc].
    injection Hc as <- _.
    unfold succeeded in Hvs; vm_compute in Hvs; discriminate.
Qed.

Lemma set_position_blocking_witness :
  returns_on_success (Gripper.set_position (PyInt 100))
  /\ ~ returns_on_success (Gripper.set_position (PyInt 50)).
Proof.
  split.
  - destruct (set_position_waits_for_success_only_when_delegating 100) as [H _].
    apply H; lia.
  - destruct (set_position_waits_for_success_only_when_delegating 50) as [_ H].
    apply H; lia.
Defined.

(** ** The cached status *)

Section CachedStatus.

Lemma blind_connect : status_blind client.connect.
Proof. intros w1 w2 [Hr Hl]; cbn; rewrite Hl; repeat split; assumption. Qed.

Lemma blind_set_status st : status_blind (set_status st).
Proof. intros w1 w2 [Hr Hl]; cbn; repeat split; assumption. Qed.

Lemma blind_perform op : status_blind (perform op).
Proof.
  destruct (perform_after_check op) as (k & Hk & Hblind).
  intros w1 w2 H; rewrite !Hk.
  apply blind_bind; [apply blind_handle_errors|intros []; exact Hblind|exact H].
Qed.

Lemma blind_reference : status_blind Gripper.reference.
Proof. exact (blind_perform OpReference). Qed.

Lemma blind_set_position target_position :
  status_blind (Gripper.set_position target_position).
Proof.
  destruct target_position as [z|b|x|s| |name].
  2: destruct b; unfold Gripper.set_position; cbn [isinstance_int negb int_value];
      cbv zeta; (apply blind_bind; [apply blind_handle_errors|intros _]);
      cbn [Z.leb Z.ltb Z.gtb Z.compare Pos.compare Pos.compare_cont andb negb];
      apply blind_grip.
  1: exact (blind_perform (OpSetPosition z)).
  all: unfold Gripper.set_position; cbn [isinstance_int negb];
    (apply blind_bind; [apply blind_load_name|intros t; apply blind_raise]).
Qed.

Lemma blind_fast_stop : status_blind Gripper.fast_stop.
Proof. unfold Gripper.fast_stop; blind. Qed.

Lemma blind_get_position : status_blind Gripper.get_position.
Proof.
  unfold Gripper.get_position.
  apply blind_bind; [apply blind_read|intros registers].
  apply blind_bind; [apply blind_registers_index|intros r0].
  apply blind_bind; [apply blind_registers_index|intros r1].
  generalize (Gripper.position_perc_of r0 r1); intros r.
  apply blind_bind; [apply blind_lift|intros q; apply blind_ret].
Qed.

Lemma blind_init ip_adress : status_blind (Gripper.init ip_adress).
Proof.
  unfold Gripper.init; destruct (isinstance_str ip_adress); cbn [negb].
  - apply blind_bind; [apply blind_connect|intros connected].
    destruct (negb connected); [apply blind_raise|].
    apply blind_bind; [apply blind_get_status|intros st].
    apply blind_bind; [apply blind_set_status|intros _].
    apply blind_bind; [apply blind_timeout|intros _].
    apply blind_bind; [apply blind_sleep|intros _].
    apply blind_bind; [apply blind_acknowledge|intros _].
    apply blind_bind; [apply blind_sleep|intros _].
    apply blind_reference.
  - apply blind_bind; [apply blind_load_name|intros t; apply blind_raise].
Qed.

End CachedStatus.

(** X11: No method trusts the cached [self.status]: two sessions over the
    same link that differ only in the cached status give the same
    result and the same traffic, for every command operation, for
    [grip] and [set_position] with any argument, for [fast_stop], for
    [get_position] and for the constructor.  The status is read afresh
    wherever it is used. *)
Theorem cached_status_is_never_trusted :
  forall w1 w2 : world,
    replies w1 = replies w2 ->
    link_ok w1 = link_ok w2 ->
    (forall op, out (perform op w1) = out (perform op w2)
                /\ trace (perform op w1) = trace (perform op w2))
    /\ (forall force, out (Gripper.grip force w1) = out (Gripper.grip force w2)
                      /\ trace (Gripper.grip force w1) = trace (Gripper.grip force w2))
    /\ (forall target, out (Gripper.set_position target w1)
                       = out (Gripper.set_position target w2)
                       /\ trace (Gripper.set_position target w1)
                          = trace (Gripper.set_position target w2))
    /\ (out (Gripper.fast_stop w1) = out (Gripper.fast_stop w2)
        /\ trace (Gripper.fast_stop w1) = trace (Gripper.fast_stop w2))
    /\ (out (Gripper.get_position w1) = out (Gripper.get_position w2)
        /\ trace (Gripper.get_position w1) = trace (Gripper.get_position w2))
    /\ (forall ip, out (Gripper.init ip w1) = out (Gripper.init ip w2)
                   /\ trace (Gripper.init ip w1) = trace (Gripper.init ip w2)).
Proof.
  intros w1 w2 Hr Hl.
  assert (H : same_link w1 w2) by (split; assumption).
  repeat apply conj.
  - intros op; destruct (blind_perform op w1 w2 H) as (Ho & Ht & _); now split.
  - intros force; destruct (blind_grip force w1 w2 H) as (Ho & Ht & _); now split.
  - intros target; destruct (blind_set_position target w1 w2 H) as (Ho & Ht & _);
      now split.
  - now destruct (blind_fast_stop w1 w2 H) as (Ho & Ht & _).
  - now destruct (blind_fast_stop w1 w2 H) as (Ho & Ht & _).
  - now destruct (blind_get_position w1 w2 H) as (Ho & Ht & _).
  - now destruct (blind_get_position w1 w2 H) as (Ho & Ht & _).
  - intros ip; destruct (blind_init ip w1 w2 H) as (Ho & Ht & _); now split.
Qed.

Lemma cached_status_witness :
  out (Gripper.stop {| status := 0; replies := [[0x0300%N]]; link_ok := true |})
  = out (Gripper.stop {| status := 3; replies := [[0x0300%N]]; link_ok := true |})
  /\ trace (Gripper.stop {| status := 0; replies := [[0x0300%N]]; link_ok := true |})
     = trace (Gripper.stop {| status := 3; replies := [[0x0300%N]]; link_ok := true |}).
Proof.
  destruct (cached_status_is_never_trusted
              {| status := 0; replies := [[0x0300%N]]; link_ok := true |}
              {| status := 3; replies := [[0x0300%N]]; link_ok := true |}
              eq_refl eq_refl) as (H & _).
  exact (H OpStop).
Defined.

(** ** Decoding the position registers *)

Section PositionRegisters.

Import PyString.

Lemma parse_digits_app s : forall t acc,
  parse_digits acc (s ++ t)%string =
    match parse_digits acc s with
    | Some a => parse_digits a t
    | None => None
    end.
Proof.
  induction s as [|c s IH]; intros t acc; simpl; [reflexivity|].
  destruct (digit_value c); [apply IH|reflexivity].
Qed.

Lemma parse_digits_shift s : forall acc,
  parse_digits acc s =
    match parse_digits 0 s with
    | Some z => Some (acc * 2 ^ Z.of_nat (String.length s) + z)
    | None => None
    end.
Proof.
  induction s as [|c s IH]; intros acc.
  - simpl; f_equal; lia.
  - cbn [parse_digits String.length]; destruct (digit_value c) as [d|]; [|reflexivity].
    rewrite (IH (2 * acc + d)), (IH (2 * 0 + d)).
    destruct (parse_digits 0 s) as [z|]; [|reflexivity].
    f_equal; rewrite Nat2Z.inj_succ, Z.pow_succ_r by lia; lia.
Qed.

Lemma word_bits_checked : all_below 65536 word_bits_ok = true.
Proof. vm_compute; reflexivity. Qed.

Lemma word_bits_parse v :
  (v < 65536)%N ->
  String.length (Gripper.word_bits v) = 16%nat
  /\ parse_digits 0 (Gripper.word_bits v) = Some (Z.of_N v).
Proof.
  intros Hv.
  pose proof (all_below_spec word_bits_ok 65536 word_bits_checked v Hv) as H.
  unfold word_bits_ok in H; apply andb_true_iff in H; destruct H as [Hlen Hparse].
  apply Nat.eqb_eq in Hlen; split; [assumption|].
  destruct (parse_digits 0 (Gripper.word_bits v)) as [z|]; [|discriminate].
  apply Z.eqb_eq in Hparse; now subst.
Qed.

(** The thirty-two digits of two registers read as one number. *)
Lemma position_bin_parse r0 r1 :
  (r0 < 65536)%N -> (r1 < 65536)%N ->
  int_base2 (Gripper.word_bits r0 ++ Gripper.word_bits r1)%string
  = inr (Z.of_N (r0 * 65536 + r1)).
Proof.
  intros H0 H1.
  destruct (word_bits_parse r0 H0) as [Hlen0 Hp0].
  destruct (word_bits_parse r1 H1) as [Hlen1 Hp1].
  assert (Hparse : parse_digits 0 (Gripper.word_bits r0 ++ Gripper.word_bits r1)%string
                   = Some (Z.of_N (r0 * 65536 + r1))).
  { rewrite parse_digits_app, Hp0, parse_digits_shift, Hp1, Hlen1.
    f_equal; change (2 ^ Z.of_nat 16) with 65536; lia. }
  unfold int_base2; rewrite Hparse.
  destruct (Gripper.word_bits r0 ++ Gripper.word_bits r1)%string eqn:E; [|reflexivity].
  apply (f_equal String.length) in E; rewrite length_append, Hlen0 in E.
  discriminate E.
Qed.

Lemma to_N_byte_of n : Byte.to_N (Struct.byte_of n) = (n mod 256)%N.
Proof.
  unfold Struct.byte_of.
  destruct (Byte.of_N (n mod 256)) as [b|] eqn:E.
  - now apply Byte.to_of_N.
  - apply Byte.of_N_None_iff in E.
    pose proof (N.mod_upper_bound n 256 ltac:(discriminate)); lia.
Qed.

Lemma u32_of_bytes_of_u32 n :
  (n < 4294967296)%N -> Struct.u32_of_bytes (Struct.bytes_of_u32 n) = n.
Proof.
  intros H; unfold Struct.u32_of_bytes, Struct.bytes_of_u32; cbn [fold_left].
  rewrite !to_N_byte_of.
  zify; Z.to_euclidean_division_equations; lia.
Qed.

Lemma unpack_pack_I n :
  (n < 4294967296)%N ->
  match Struct.pack_I (Z.of_N n) with
  | inr bs => Struct.unpack_f bs
  | inl e => inl e
  end = inr (PyFloat.of_single (PyFloat.single_of_bits n)).
Proof.
  intros H; unfold Struct.pack_I.
  replace ((0 <=? Z.of_N n) && (Z.of_N n <? 4294967296)) with true
    by (symmetry; apply andb_true_iff; split; [apply Z.leb_le|apply Z.ltb_lt]; lia).
  rewrite N2Z.id; unfold Struct.unpack_f.
  change (Nat.eqb (List.length (Struct.bytes_of_u32 n)) 4) with true.
  cbv iota; now rewrite (u32_of_bytes_of_u32 n H).
Qed.

Lemma position_perc_of_registers r0 r1 :
  (r0 < 65536)%N -> (r1 < 65536)%N ->
  Gripper.position_perc_of r0 r1 = percentage_of_mm (position_mm_from r0 r1).
Proof.
  intros H0 H1; unfold Gripper.position_perc_of; cbv zeta.
  rewrite (position_bin_parse r0 r1 H0 H1); cbv iota.
  pose proof (unpack_pack_I (r0 * 65536 + r1) ltac:(lia)) as Hpack.
  destruct (Struct.pack_I (Z.of_N (r0 * 65536 + r1))) as [e|bs]; [discriminate|].
  rewrite Hpack; reflexivity.
Qed.

Lemma exponent_of_registers r0 r1 :
  (r0 < 65536)%N -> (r1 < 65536)%N ->
  ((r0 * 65536 + r1) / 8388608 = r0 / 128
   /\ (r0 * 65536 + r1) mod 8388608 = (r0 mod 128) * 65536 + r1)%N.
Proof. intros H0 H1; split; zify; Z.to_euclidean_division_equations; lia. Qed.

Lemma roundtrip_at_or_below_checked : forallb roundtrip_at_or_below percentages = true.
Proof. vm_compute; reflexivity. Qed.

End PositionRegisters.

(** X12: [get_position] asks for two registers at [0x0003] and takes them,
    the first as the high half, as the pattern of a binary32 number
    of millimetres: for unsigned 16-bit registers [r0] and [r1] it
    returns [int(((POSITION_MAX - mm) / POSITION_MAX) * 100)] for the
    number whose pattern is [r0 * 65536 + r1].  A reply with fewer than
    two registers ends in an [IndexError]. *)
Theorem get_position_reads_registers_big_endian :
  forall (w : world) (r0 r1 : N) (more : list N) (rs : list (list N)),
    (r0 < 65536)%N -> (r1 < 65536)%N ->
    (replies w = (r0 :: r1 :: more) :: rs ->
     Gripper.get_position w =
       {| out := match percentage_of_mm (position_mm_from r0 r1) with
                 | inr q => Ret q
                 | inl e => Raise e
                 end;
          trace := [ReadInputRegisters 0x0003 2];
          final := with_replies w rs |})
    /\ (replies w = [r0] :: rs ->
        Gripper.get_position w =
          {| out := Raise IndexError; trace := [ReadInputRegisters 0x0003 2];
             final := with_replies w rs |})
    /\ (replies w = [] :: rs ->
        Gripper.get_position w =
          {| out := Raise IndexError; trace := [ReadInputRegisters 0x0003 2];
             final := with_replies w rs |}).
Proof.
  intros w r0 r1 more rs H0 H1; repeat apply conj; intros Hw.
  - rewrite (get_position_run w r0 r1 more rs Hw).
    now rewrite (position_perc_of_registers r0 r1 H0 H1).
  - unfold Gripper.get_position.
    rewrite (bind_run _ _ _ _ _ _ (read_run 3 2 w _ rs Hw)).
    reflexivity.
  - unfold Gripper.get_position.
    rewrite (bind_run _ _ _ _ _ _ (read_run 3 2 w _ rs Hw)).
    reflexivity.
Qed.

Lemma get_position_registers_witness :
  Gripper.get_position (session [[16802; 47992]%N]) =
    {| out := Ret 50; trace := [ReadInputRegisters 0x0003 2]; final := session [] |}.
Proof.
  destruct (get_position_reads_registers_big_endian
              (session [[16802; 47992]%N]) 16802 47992 [] []
              ltac:(reflexivity) ltac:(reflexivity)) as [H _].
  exact (H eq_refl).
Defined.

(** X13: When the two registers hold a binary32 pattern whose exponent field
    is all ones, [get_position] does not return: [int()] raises
    [OverflowError] for an infinity (mantissa field zero) and
    [ValueError] for a NaN (any other mantissa). *)
Theorem get_position_raises_on_non_finite :
  forall r0 r1 : N,
    (r0 < 65536)%N -> (r1 < 65536)%N ->
    ((r0 / 128) mod 256 = 255)%N ->
    Gripper.position_perc_of r0 r1 =
      inl (if ((r0 mod 128 =? 0) && (r1 =? 0))%N then OverflowError else ValueError)
    /\ forall w rs,
        out (Gripper.get_position (with_replies w ([r0; r1] :: rs))) =
          Raise (if ((r0 mod 128 =? 0) && (r1 =? 0))%N then OverflowError else ValueError).
Proof.
  intros r0 r1 H0 H1 Hex.
  assert (Hperc : Gripper.position_perc_of r0 r1 =
                  inl (if ((r0 mod 128 =? 0) && (r1 =? 0))%N
                       then OverflowError else ValueError)).
  { rewrite (position_perc_of_registers r0 r1 H0 H1).
    unfold position_mm_from, PyFloat.single_of_bits; cbv zeta.
    destruct (exponent_of_registers r0 r1 H0 H1) as [Hdiv Hmod].
    rewrite Hdiv, Hmod, Hex.
    change (255 =? 0)%N with false; change (255 =? 255)%N with true; cbv iota.
    destruct (N.eqb_spec (r0 mod 128) 0) as [Hm|Hm];
      [destruct (N.eqb_spec r1 0) as [Hr|Hr]|]; cbn [andb].
    - rewrite Hm, Hr; cbn [N.mul N.add].
      destruct (N.testbit _ 31); vm_compute; reflexivity.
    - destruct (r0 mod 128 * 65536 + r1)%N eqn:E; [lia|].
      vm_compute; reflexivity.
    - destruct (r0 mod 128 * 65536 + r1)%N eqn:E; [lia|].
      vm_compute; reflexivity. }
  split; [exact Hperc|].
  intros w rs.
  rewrite (get_position_run (with_replies w ([r0; r1] :: rs)) r0 r1 [] rs eq_refl).
  cbn [out]; now rewrite Hperc.
Qed.

Lemma get_position_non_finite_witness :
  Gripper.position_perc_of 0x7F80 0x0000 = inl OverflowError
  /\ Gripper.position_perc_of 0xFFC0 0x0001 = inl ValueError.
Proof.
  split.
  - destruct (get_position_raises_on_non_finite 0x7F80 0x0000
                ltac:(reflexivity) ltac:(reflexivity) ltac:(reflexivity)) as [H _].
    exact H.
  - destruct (get_position_raises_on_non_finite 0xFFC0 0x0001
                ltac:(reflexivity) ltac:(reflexivity) ltac:(reflexivity)) as [H _].
    exact H.
Defined.

(** X14: Reading back the two words written for a percentage from 0 to 100
    never gives more than that percentage: the result is the percentage
    itself or one less, and it lies between 0 and 100. *)
Theorem position_round_trip_never_overshoots :
  forall percentage : Z,
    0 <= percentage <= 100 ->
    exists hi lo q : Z,
      encode_position percentage = inr (hi, lo)
      /\ Gripper.position_perc_of (Z.to_N hi) (Z.to_N lo) = inr q
      /\ (q = percentage \/ q = percentage - 1)
      /\ 0 <= q <= 100.
Proof.
  intros percentage H.
  pose proof roundtrip_at_or_below_checked as Hall.
  rewrite forallb_forall in Hall.
  specialize (Hall percentage (in_percentages percentage H)).
  unfold roundtrip_at_or_below in Hall.
  destruct (encode_position percentage) as [e|[hi lo]]; [discriminate|].
  destruct (Gripper.position_perc_of (Z.to_N hi) (Z.to_N lo)) as [e|q] eqn:Hq;
    [discriminate|].
  apply andb_true_iff in Hall; destruct Hall as [Hall Hle].
  apply andb_true_iff in Hall; destruct Hall as [Heq Hge].
  apply orb_true_iff in Heq; apply Z.leb_le in Hle, Hge.
  exists hi, lo, q; split; [reflexivity|split; [exact Hq|split; [|lia]]].
  destruct Heq as [Heq|Heq]; apply Z.eqb_eq in Heq; [now left|now right].
Qed.

Lemma position_round_trip_below_witness :
  exists hi lo q : Z,
    encode_position 99 = inr (hi, lo)
    /\ Gripper.position_perc_of (Z.to_N hi) (Z.to_N lo) = inr q
    /\ (q = 99 \/ q = 99 - 1)
    /\ 0 <= q <= 100.
Proof. exact (position_round_trip_never_overshoots 99 ltac:(lia)). Defined.

(** ** Delegation in [set_position] *)

(** X15: When [set_position] delegates, the error-recovery check runs twice,
    once in [set_position] and once in [grip] or [release], each time
    on a fresh status word; a gripper that reports Error both times is
    acknowledged twice.  After that the traffic is that of [grip(4)],
    whose force word is 0, for targets 0 to 2, and that of [release]
    for targets 98 to 100. *)
Theorem set_position_delegation_checks_twice :
  forall (target : Z) w v0 regs0 st0 v1 regs1 st1 bs va regsa waiting vs regss rs,
    replies w =
      (v0 :: regs0) :: (v1 :: regs1)
        :: words bs ++ (va :: regsa) :: words waiting ++ (vs :: regss) :: rs ->
    Gripper.status_field v0 = inr st0 ->
    Gripper.status_field v1 = inr st1 ->
    Forall busy bs -> (List.length bs < 1000)%nat -> accepted va ->
    Forall (fun v => ~ succeeded v) waiting -> succeeded vs ->
    let run (command : Z) : run unit :=
      {| out := Ret tt;
         trace := read_status :: recovery_trace st0
                    ++ read_status :: recovery_trace st1
                    ++ [WriteRegisters 0x0801 [command; 0; 0; 0];
                        Sleep 50;
                        WriteRegisters 0x0801 [Z.lor command 0x8000; 0; 0; 0]]
                    ++ repeat read_status (S (List.length bs))
                    ++ Sleep 1000 :: success_polling waiting;
         final := with_status w st1 rs |} in
    (0 <= target < 3 -> Gripper.set_position (PyInt target) w = run 0x0400)
    /\ (97 < target <= 100 -> Gripper.set_position (PyInt target) w = run 0x0300).
Proof.
  intros target w v0 regs0 st0 v1 regs1 st1 bs va regsa waiting vs regss rs
         Hw Hst0 Hst1 Hbs Hlen Hva Hwait Hvs run; subst run.
  pose (rest := words bs ++ (va :: regsa) :: words waiting ++ (vs :: regss) :: rs).
  split; intros Htarget.
  - rewrite (set_position_low target w Htarget).
    apply (bind_run_to _ _ _ tt (read_status :: recovery_trace st0)
             (with_status w st0 ((v1 :: regs1) :: rest)));
      [exact (handle_errors_run w v0 regs0 _ st0 Hw Hst0)|].
    exact (grip_run 4 (with_status w st0 ((v1 :: regs1) :: rest))
             v1 regs1 st1 bs va regsa waiting vs regss rs
             ltac:(lia) eq_refl Hst1 Hbs Hlen Hva Hwait Hvs).
  - rewrite (set_position_high target w Htarget).
    apply (bind_run_to _ _ _ tt (read_status :: recovery_trace st0)
             (with_status w st0 ((v1 :: regs1) :: rest)));
      [exact (handle_errors_run w v0 regs0 _ st0 Hw Hst0)|].
    exact (release_run (with_status w st0 ((v1 :: regs1) :: rest))
             v1 regs1 st1 bs va regsa waiting vs regss rs
             eq_refl Hst1 Hbs Hlen Hva Hwait Hvs).
Qed.

Lemma set_position_delegation_witness :
  Gripper.set_position (PyInt 2) (session (words [0x0000; 0x0000; 0x8000; 0xC000]%N)) =
    {| out := Ret tt;
       trace := [read_status;
                 WriteRegister 0x0801 0x0100; Sleep 100;
                 WriteRegister 0x0801 0x8100; Sleep 100;
                 read_status;
                 WriteRegister 0x0801 0x0100; Sleep 100;
                 WriteRegister 0x0801 0x8100; Sleep 100;
                 WriteRegisters 0x0801 [0x0400; 0; 0; 0];
                 Sleep 50;
                 WriteRegisters 0x0801 [0x8400; 0; 0; 0];
                 read_status; Sleep 1000; read_status];
       final := session [] |}.
Proof.
  destruct (set_position_delegation_checks_twice
              2 (session (words [0x0000; 0x0000; 0x8000; 0xC000]%N))
              0x0000%N [] 0 0x0000%N [] 0 [] 0x8000%N [] [] 0xC000%N [] [])
    as [H _].
  - reflexivity.
  - reflexivity.
  - reflexivity.
  - constructor.
  - simpl; lia.
  - unfold accepted; simpl; lia.
  - constructor.
  - reflexivity.
  - apply H; lia.
Defined.
